(** * Metadata conformance harness (packages/types/src/metadata/util/testUtil.ts)

    A shallow embedding of the test helpers [serialize], [decodeLatestMeta],
    [toLatest], [defaultValues] and [testMeta].  The helpers are written
    against collaborators that live elsewhere (the metadata codec and its
    registry, the node file system and environment, the test runner), so
    the embedding threads an explicit world through a state-and-exception
    monad and takes the codec as an interface. *)

From Stdlib Require Import ZArith String Ascii List Bool Lia.
From stdpp Require Import base option list gmap strings pretty.

Open Scope Z_scope.
Open Scope string_scope.

(** ** JavaScript values used by the helpers *)

(** A thrown value.  Every throw in the helpers is [new Error(message)] or
    comes out of a collaborator; only [message] is ever read back
    (line 121). *)
Record Error : Type := mkError { error_name : string; message : string }.

Definition new_Error (msg : string) : Error := mkError "Error" msg.
Definition TypeError (msg : string) : Error := mkError "TypeError" msg.
Definition AssertionError (msg : string) : Error := mkError "AssertionError" msg.

(** The outcome of evaluating an expression: a value, or a thrown error. *)
Inductive Res (A : Type) : Type :=
| Ok (a : A)
| Throw (e : Error).
Arguments Ok {A} a.
Arguments Throw {A} e.

Definition is_ok {A} (r : Res A) : bool :=
  match r with Ok _ => true | Throw _ => false end.

(** The tree that [toJSON()] returns and that [JSON.parse] reads back.
    Objects keep their keys in insertion order, as JavaScript objects do. *)
#[local] Unset Elimination Schemes.
Inductive JSON : Type :=
| JNull
| JBool (b : bool)
| JNumber (n : Z)
| JString (s : string)
| JArray (items : list JSON)
| JObject (props : list (string * JSON)).
#[local] Set Elimination Schemes.

(** ** Strings *)

(** [`${n}`] for an integral number. *)
Definition number_toString (n : Z) : string := pretty n.

(** [s.includes(f)]: [f] occurs in [s] at some offset. *)
Fixpoint includes (s f : string) : bool :=
  String.prefix f s ||
  match s with
  | EmptyString => false
  | String _ s' => includes s' f
  end.

(** [fails.some((f) => location.includes(f))] *)
Definition some {A} (p : A -> bool) (l : list A) : bool := existsb p l.

(** ** Bytes and their hex form ([u8aToHex] of @polkadot/util) *)

Definition hex_digit (n : N) : ascii :=
  match n with
  | 0 => "0" | 1 => "1" | 2 => "2" | 3 => "3" | 4 => "4" | 5 => "5"
  | 6 => "6" | 7 => "7" | 8 => "8" | 9 => "9" | 10 => "a" | 11 => "b"
  | 12 => "c" | 13 => "d" | 14 => "e" | _ => "f"
  end%N%char.

Fixpoint hex_of_bytes (u8a : list Byte.byte) : string :=
  match u8a with
  | [] => EmptyString
  | b :: rest =>
      String (hex_digit (Byte.to_N b / 16))
        (String (hex_digit (Byte.to_N b mod 16)) (hex_of_bytes rest))
  end.

(** [u8aToHex(u8a)] with its default arguments: the "0x" prefix followed by
    two lower-case digits per byte. *)
Definition u8aToHex (u8a : list Byte.byte) : string := "0x" +:+ hex_of_bytes u8a.

(** [s.length] *)
Definition str_length (s : string) : Z := Z.of_nat (String.length s).

(** ** Property access on JSON trees *)

Fixpoint assoc (key : string) (props : list (string * JSON)) : option JSON :=
  match props with
  | [] => None
  | (k, v) :: rest => if String.eqb k key then Some v else assoc key rest
  end.

(** Assignment to an existing own property keeps its position. *)
Fixpoint assoc_set (key : string) (v : JSON) (props : list (string * JSON))
  : list (string * JSON) :=
  match props with
  | [] => []
  | (k, x) :: rest =>
      if String.eqb k key then (k, v) :: rest else (k, x) :: assoc_set key v rest
  end.

Definition assoc_remove (key : string) (props : list (string * JSON))
  : list (string * JSON) :=
  List.filter (fun kv => negb (String.eqb (fst kv) key)) props.

(** [base[key]], where [None] stands for [undefined].  Reading a property
    of [null] or [undefined] throws; an object yields its own property;
    every other value (the keys read here are "metadata", "v<n>" and
    "lookup", none of which a primitive or an array defines) yields
    [undefined]. *)
Definition get_prop (base : option JSON) (key : string) : Res (option JSON) :=
  match base with
  | None => Throw (TypeError ("Cannot read properties of undefined (reading '" +:+ key +:+ "')"))
  | Some JNull => Throw (TypeError ("Cannot read properties of null (reading '" +:+ key +:+ "')"))
  | Some (JObject props) => Ok (assoc key props)
  | Some _ => Ok None
  end.

(** The object [base] after one of its existing properties was mutated in
    place; values that are not objects have nothing to mutate. *)
Definition with_prop (base : JSON) (key : string) (v : JSON) : JSON :=
  match base with
  | JObject props => JObject (assoc_set key v props)
  | other => other
  end.

(** [delete json.metadata[v].lookup] (line 42), returning the tree [json]
    refers to afterwards.  The two reads throw on [null]/[undefined]; the
    [delete] throws when its base is [null]/[undefined], removes the own
    property of an object, and does nothing on any other value. *)
Definition delete_lookup (json : JSON) (v : string) : Res JSON :=
  match get_prop (Some json) "metadata" with
  | Throw e => Throw e
  | Ok md =>
      match get_prop md v with
      | Throw e => Throw e
      | Ok None => Throw (TypeError "Cannot convert undefined or null to object")
      | Ok (Some JNull) => Throw (TypeError "Cannot convert undefined or null to object")
      | Ok (Some (JObject props)) =>
          match md with
          | Some mdv =>
              Ok (with_prop json "metadata"
                    (with_prop mdv v (JObject (assoc_remove "lookup" props))))
          | None => Ok json
          end
      | Ok (Some _) => Ok json
      end
  end.

(** Navigation along object keys, used to state what [delete] changes. *)
Fixpoint lookup_path (j : JSON) (path : list string) : option JSON :=
  match path with
  | [] => Some j
  | k :: rest =>
      match j with
      | JObject props =>
          match assoc k props with
          | Some child => lookup_path child rest
          | None => None
          end
      | _ => None
      end
  end.

(** ** State and exceptions *)

(** A computation over a state [S] that returns a value or throws; the
    state reached before a throw is kept, as a [catch] block sees it. *)
Definition ST (S A : Type) : Type := S -> Res A * S.

Definition ret {S A} (a : A) : ST S A := fun s => (Ok a, s).

Definition throw {S A} (e : Error) : ST S A := fun s => (Throw e, s).

Definition bind {S A B} (m : ST S A) (k : A -> ST S B) : ST S B :=
  fun s =>
    match m s with
    | (Ok a, s') => k a s'
    | (Throw e, s') => (Throw e, s')
    end.

(** [try { body } catch (error) { handler }] *)
Definition try_catch {S A} (body : ST S A) (handler : Error -> ST S A) : ST S A :=
  fun s =>
    match body s with
    | (Ok a, s') => (Ok a, s')
    | (Throw e, s') => handler e s'
    end.

(** A pure expression that may throw. *)
Definition of_res {S A} (r : Res A) : ST S A := fun s => (r, s).

Declare Scope js_scope.
Delimit Scope js_scope with js.
Notation "'let*' x := e 'in' k" := (bind e (fun x => k))
  (at level 10, x name, e at level 100, k at level 200) : js_scope.
Notation "e1 ;; e2" := (bind e1 (fun _ => e2))
  (at level 100, right associativity) : js_scope.
Open Scope js_scope.

(** [forEach] over an array, stopping at the first throw. *)
Fixpoint forEach {S A} (l : list A) (f : A -> ST S unit) : ST S unit :=
  match l with
  | [] => ret tt
  | x :: rest => f x;; forEach rest f
  end.

(** ** The codec and registry interface

    [Metadata], [TypeRegistry], [getUniqTypes], [unwrapStorageType] and
    [unwrapStorageSi] are imported by the helpers, not defined by them.
    They are taken as an interface: every call may throw and may change
    the state of the registry it is made against. *)

Class CodecTypes : Type := {
  Reg : Type;               (* a TypeRegistry and the objects created against it *)
  Metadata : Type;
  PortableRegistry : Type;  (* [latest.lookup] *)
  StorageEntryType : Type;
  SiLookupTypeId : Type;
  Codec : Type              (* a decoded instance, or the [Bytes] of a fallback *)
}.

(** A line written with [console.error] or [console.warn]. *)
Inductive ConsoleLine : Type :=
| console_error_line (error : Error)
| console_warn_line (msg : string).

Inductive StorageEntryModifier : Type := Optional | Default.

Definition isOptional (m : StorageEntryModifier) : bool :=
  match m with Optional => true | Default => false end.

Section Model.
Context `{CodecTypes}.

Record StorageEntryMetadata : Type := {
  item_name : string;
  modifier : StorageEntryModifier;
  item_type : StorageEntryType;
  fallback : Codec
}.

Record PalletStorageMetadata : Type := {
  items : list StorageEntryMetadata
}.

(** [storage] is an [Option]: [isSome] / [unwrap()]. *)
Record PalletMetadata : Type := {
  pallet_name : string;
  storage : option PalletStorageMetadata
}.

Record MetadataLatest : Type := {
  pallets : list PalletMetadata;
  lookup : PortableRegistry
}.

Class Collaborators : Type := {
  (* new TypeRegistry() *)
  new_TypeRegistry : Reg;
  (* new Metadata(registry, data) *)
  new_Metadata : string -> ST Reg Metadata;
  (* registry.setMetadata(metadata) *)
  setMetadata : Metadata -> ST Reg unit;
  (* metadata.version *)
  Metadata_version : Metadata -> Z;
  (* metadata.toHex(), metadata.toJSON() *)
  Metadata_toHex : Metadata -> ST Reg string;
  Metadata_toJSON : Metadata -> ST Reg JSON;
  (* metadata.asLatest, metadata.asCallsOnly *)
  asLatest : Metadata -> ST Reg MetadataLatest;
  asCallsOnly : Metadata -> ST Reg Metadata;
  (* lookup.types.toJSON() *)
  types_toJSON : PortableRegistry -> ST Reg JSON;
  (* getUniqTypes(registry, latest, withThrow), and what it writes to the
     console while it runs *)
  getUniqTypes : MetadataLatest -> bool -> ST Reg (list string);
  getUniqTypes_prints : MetadataLatest -> bool -> Reg -> list ConsoleLine;
  (* unwrapStorageType(registry, type, isOptional), unwrapStorageSi(type) *)
  unwrapStorageType : StorageEntryType -> bool -> ST Reg string;
  unwrapStorageSi : StorageEntryType -> ST Reg SiLookupTypeId;
  (* registry.createLookupType(id) *)
  createLookupType : SiLookupTypeId -> ST Reg string;
  (* registry.createTypeUnsafe(typeName, params, { isOptional }) *)
  createTypeUnsafe : string -> list (list Byte.byte) -> bool -> ST Reg Codec;
  (* codec.toHex(), codec.toU8a(isBare?) with [None] for an omitted flag *)
  toHex : Codec -> ST Reg string;
  toU8a : Codec -> option bool -> ST Reg (list Byte.byte);
  (* @polkadot/util *)
  stringCamelCase : string -> string;
  hexToU8a : string -> Res (list Byte.byte);
  stringify : JSON -> Z -> string;
  (* JSON.parse, path.join *)
  JSON_parse : string -> Res JSON;
  path_join : string -> string -> string;
  (* the deep equality behind expect(tree).toEqual(tree) *)
  deepEqual : JSON -> JSON -> bool
}.

Context `{Collaborators}.

(** ** The world the helpers run in *)

Definition Registry : Type := nat.

(** Calls made on the collaborators, in order. *)
Inductive Event : Type :=
| Call_new_Metadata (registry : Registry) (data : string)
| Call_setMetadata (registry : Registry) (metadata : Metadata)
| Call_Metadata_toHex (metadata : Metadata)
| Call_Metadata_toJSON (metadata : Metadata)
| Call_asLatest (metadata : Metadata)
| Call_asCallsOnly (metadata : Metadata)
| Call_types_toJSON (types : PortableRegistry)
| Call_getUniqTypes (registry : Registry) (latest : MetadataLatest) (withThrow : bool)
| Call_unwrapStorageType (registry : Registry) (ty : StorageEntryType) (isOpt : bool)
| Call_unwrapStorageSi (ty : StorageEntryType)
| Call_createLookupType (registry : Registry) (id : SiLookupTypeId)
| Call_createTypeUnsafe (registry : Registry) (typeName : string)
    (params : list (list Byte.byte)) (isOpt : bool)
| Call_toHex (value : Codec)
| Call_toU8a (value : Codec) (isBare : option bool).

Record World : Type := mkWorld {
  regs : Registry -> Reg;          (* the registries allocated so far *)
  next_registry : Registry;
  cwd : string;                    (* process.cwd() *)
  env : gmap string string;        (* process.env *)
  files : gmap string string;      (* the file system: path to contents *)
  write_errors : gmap string Error;
    (* the paths that cannot be opened for writing (missing directory, no
       permission), each with the error the attempt throws *)
  console : list ConsoleLine;
  calls : list Event
}.

Definition M (A : Type) : Type := ST World A.

Definition with_reg (registry : Registry) (s : Reg) (w : World) : World :=
  mkWorld (fun i => if Nat.eqb i registry then s else regs w i)
    (next_registry w) (cwd w) (env w) (files w) (write_errors w) (console w) (calls w).

Definition with_call (ev : Event) (w : World) : World :=
  mkWorld (regs w) (next_registry w) (cwd w) (env w) (files w) (write_errors w)
    (console w) (calls w ++ [ev]).

Definition with_console (line : ConsoleLine) (w : World) : World :=
  mkWorld (regs w) (next_registry w) (cwd w) (env w) (files w) (write_errors w)
    (console w ++ [line]) (calls w).

Definition with_file (path text : string) (w : World) : World :=
  mkWorld (regs w) (next_registry w) (cwd w) (env w)
    (<[path := text]> (files w)) (write_errors w) (console w) (calls w).

(** A call on a collaborator bound to [registry]: it runs on that
    registry's state and is recorded. *)
Definition call {A} (registry : Registry) (ev : Event) (op : ST Reg A) : M A :=
  fun w =>
    let '(r, s') := op (regs w registry) in
    (r, with_call ev (with_reg registry s' w)).

Definition with_lines (lines : list ConsoleLine) (w : World) : World :=
  mkWorld (regs w) (next_registry w) (cwd w) (env w) (files w) (write_errors w)
    (console w ++ lines) (calls w).

(** A call that also prints. *)
Definition call_printing {A} (registry : Registry) (ev : Event) (op : ST Reg A)
    (prints : Reg -> list ConsoleLine) : M A :=
  fun w =>
    let '(r, s') := op (regs w registry) in
    (r, with_lines (prints (regs w registry)) (with_call ev (with_reg registry s' w))).

Definition process_cwd : M string := fun w => (Ok (cwd w), w).

Definition process_env (key : string) : M (option string) :=
  fun w => (Ok (env w !! key), w).

(** Truthiness of an environment variable: set and not empty. *)
Definition truthy (v : option string) : bool :=
  match v with
  | Some s => negb (String.eqb s EmptyString)
  | None => false
  end.

Definition console_error (error : Error) : M unit :=
  fun w => (Ok tt, with_console (console_error_line error) w).

Definition console_warn (msg : string) : M unit :=
  fun w => (Ok tt, with_console (console_warn_line msg) w).

(** [fs.readFileSync(path, 'utf-8')] throws when there is no such file. *)
Definition readFileSync (path : string) : M string :=
  fun w =>
    match files w !! path with
    | Some text => (Ok text, w)
    | None => (Throw (new_Error ("ENOENT: no such file or directory, open '" +:+ path +:+ "'")), w)
    end.

(** [fs.writeFileSync(path, text, { flag: 'w' })] creates or replaces the
    file, or throws when the path cannot be opened for writing. *)
Definition writeFileSync (path text : string) : M unit :=
  fun w =>
    match write_errors w !! path with
    | Some e => (Throw e, w)
    | None => (Ok tt, with_file path text w)
    end.

(** ** The test runner

    [describe] runs its callback at once and collects the checks that the
    callback registers with [it]; the bodies of the checks run later, one
    after the other.  An error that escapes a [describe] callback fails
    that suite and is not seen by the caller of [describe]. *)

Record Test : Type := mkTest {
  suite : list string;   (* titles of the enclosing describe blocks *)
  title : string;
  skipped : bool;        (* registered with it.skip *)
  body : M unit
}.

Record Collector : Type := mkCollector {
  world : World;
  path : list string;
  tests : list Test;
  suite_errors : list (list string * Error)
}.

Definition Collect (A : Type) : Type := ST Collector A.

(** Code of a [describe] callback that is not a registration. *)
Definition run {A} (m : M A) : Collect A :=
  fun c =>
    let '(r, w') := m (world c) in
    (r, mkCollector w' (path c) (tests c) (suite_errors c)).

Definition register (skip : bool) (name : string) (fn : M unit) : Collect unit :=
  fun c =>
    (Ok tt, mkCollector (world c) (path c)
              (tests c ++ [mkTest (path c) name skip fn]) (suite_errors c)).

Definition it : string -> M unit -> Collect unit := register false.
Definition it_skip : string -> M unit -> Collect unit := register true.

Definition describe (name : string) (fn : Collect unit) : Collect unit :=
  fun c =>
    let '(r, c') := fn (mkCollector (world c) (path c ++ [name]) (tests c) (suite_errors c)) in
    (Ok tt, mkCollector (world c') (path c) (tests c')
              match r with
              | Ok _ => suite_errors c'
              | Throw e => (suite_errors c' ++ [((path c ++ [name])%list, e)])%list
              end).

(** [expect(received).toBe(expected)] on numbers. *)
Definition expect_toBe (received expected : Z) : M unit :=
  if Z.eqb received expected then ret tt
  else throw (AssertionError
                ("expected " +:+ number_toString received +:+ " to be " +:+ number_toString expected)).

(** [expect(received).toEqual(expected)] on strings. *)
Definition expect_toEqual_string (received expected : string) : M unit :=
  if String.eqb received expected then ret tt
  else throw (AssertionError ("expected " +:+ received +:+ " to equal " +:+ expected)).

(** [expect(received).toEqual(expected)] on trees. *)
Definition expect_toEqual (received expected : JSON) : M unit :=
  if deepEqual received expected then ret tt
  else throw (AssertionError "expected values to be deep-equal").

(** [expect(fn).not.toThrow()] *)
Definition expect_not_toThrow {A} (fn : M A) : M unit :=
  try_catch (fn;; ret tt)
    (fun e => throw (AssertionError ("expected function not to throw: " +:+ message e))).

Inductive Outcome : Type := Passed | Failed (e : Error) | Skipped.

Definition run_test (t : Test) : World -> Outcome * World :=
  fun w =>
    if skipped t then (Skipped, w)
    else match body t w with
         | (Ok _, w') => (Passed, w')
         | (Throw e, w') => (Failed e, w')
         end.

Fixpoint run_tests (ts : list Test) (w : World) : list (string * Outcome) * World :=
  match ts with
  | [] => ([], w)
  | t :: rest =>
      let '(o, w1) := run_test t w in
      let '(os, w2) := run_tests rest w1 in
      ((title t, o) :: os, w2)
  end.

(** ** testUtil.ts *)

Record Check : Type := mkCheck {
  data : string;                 (* HexString *)
  fails : option (list string)   (* fails?: string[] *)
}.

Inductive Sub : Type := sub_json | sub_types.

Definition Sub_toString (sub : Sub) : string :=
  match sub with sub_json => "json" | sub_types => "types" end.

Definition getJsonName (version : Z) (type : string) (sub : Sub) : M string :=
  let* dir := process_cwd in
  ret (path_join dir
         ("packages/types-support/src/metadata/v" +:+ number_toString version
            +:+ "/" +:+ type +:+ "-" +:+ Sub_toString sub +:+ ".json")).

Definition writeJson (json : JSON) (version : Z) (type : string) (sub : Sub) : M unit :=
  let* file := getJsonName version type sub in
  writeFileSync file (stringify json 2).

Definition readJson (version : Z) (type : string) (sub : Sub) : M JSON :=
  let* file := getJsonName version type sub in
  let* text := readFileSync file in
  of_res (JSON_parse text).

(** The [try]/[catch] of lines 46-55, which lines 62-71 repeat for the
    'types' fixture. *)
Definition compare_or_write (json : JSON) (version : Z) (type : string) (sub : Sub) : M unit :=
  try_catch
    (let* expected := readJson version type sub in
     expect_toEqual json expected)
    (fun error =>
       let* repo := process_env "GITHUB_REPOSITORY" in
       if truthy repo then throw error
       else (console_error error;;
             writeJson json version type sub)).

(** Body of 'decodes latest substrate properly' (lines 39-56). *)
Definition decodes_latest_substrate_properly
    (registry : Registry) (type : string) (version : Z) (metadata : Metadata) : M unit :=
  let* json := call registry (Call_Metadata_toJSON metadata) (Metadata_toJSON metadata) in
  let* json := of_res (delete_lookup json ("v" +:+ number_toString (Metadata_version metadata))) in
  expect_toBe (Metadata_version metadata) version;;
  compare_or_write json version type sub_json.

(** Body of 'decodes latest types correctly' (lines 59-72). *)
Definition decodes_latest_types_correctly
    (registry : Registry) (type : string) (version : Z) (metadata : Metadata) : M unit :=
  let* latest := call registry (Call_asLatest metadata) (asLatest metadata) in
  let* json := call registry (Call_types_toJSON (lookup latest)) (types_toJSON (lookup latest)) in
  compare_or_write json version type sub_types.

Definition decodeLatestMeta
    (registry : Registry) (type : string) (version : Z) (check : Check) : Collect unit :=
  let* metadata := run (call registry (Call_new_Metadata registry (data check))
                          (new_Metadata (data check))) in
  run (call registry (Call_setMetadata registry metadata) (setMetadata metadata));;
  it "decodes latest substrate properly"
     (decodes_latest_substrate_properly registry type version metadata);;
  if (14 <=? version)%Z
  then it "decodes latest types correctly"
          (decodes_latest_types_correctly registry type version metadata)
  else ret tt.

(** Body of the check registered by [toLatest] (lines 78-88). *)
Definition converts_to_latest (registry : Registry) (check : Check) (withThrow : bool) : M unit :=
  let* metadata := call registry (Call_new_Metadata registry (data check))
                     (new_Metadata (data check)) in
  call registry (Call_setMetadata registry metadata) (setMetadata metadata);;
  let* latest := call registry (Call_asLatest metadata) (asLatest metadata) in
  if (Metadata_version metadata <? 14)%Z
  then (call_printing registry (Call_getUniqTypes registry latest withThrow)
          (getUniqTypes latest withThrow) (getUniqTypes_prints latest withThrow);;
        ret tt)
  else ret tt.

(** [withThrow = true] when the argument is omitted. *)
Definition toLatest
    (registry : Registry) (version : Z) (check : Check) (withThrow : option bool) : Collect unit :=
  let withThrow := default true withThrow in
  it ("converts v" +:+ number_toString version +:+ " to latest")
     (converts_to_latest registry check withThrow).

(** Lines 107-111: the fallback decoded under the item's own type. *)
Definition create_instance (registry : Registry) (item : StorageEntryMetadata) : M Codec :=
  let* id := call registry (Call_unwrapStorageSi (item_type item))
               (unwrapStorageSi (item_type item)) in
  let* typeName := call registry (Call_createLookupType registry id)
                     (createLookupType id) in
  let* hex := call registry (Call_toHex (fallback item)) (toHex (fallback item)) in
  let* u8a := of_res (hexToU8a hex) in
  call registry
    (Call_createTypeUnsafe registry typeName [u8a] (isOptional (modifier item)))
    (createTypeUnsafe typeName [u8a] (isOptional (modifier item))).

(** Lines 114-118: [instance.toU8a()] against [fallback.toU8a(true)].
    Both hex strings come out of [u8aToHex], so their lengths are even
    and the two divisions by 2 are exact. *)
Definition fallback_check
    (registry : Registry) (item : StorageEntryMetadata) (instance : Codec) : M unit :=
  let* encoded := call registry (Call_toU8a instance None) (toU8a instance None) in
  let hexType := u8aToHex encoded in
  let* original := call registry (Call_toU8a (fallback item) (Some true))
                     (toU8a (fallback item) (Some true)) in
  let hexOrig := u8aToHex original in
  if negb (String.eqb hexType hexOrig) then
    throw (new_Error
             ("Fallback does not match ("
                +:+ number_toString
                      ((str_length hexOrig - 2) / 2 - (str_length hexType - 2) / 2)
                +:+ " bytes missing): " +:+ hexType +:+ " !== " +:+ hexOrig))
  else ret tt.

(** The [try] block of lines 106-119. *)
Definition decode_fallback
    (registry : Registry) (item : StorageEntryMetadata) (withFallbackCheck : bool) : M unit :=
  let* instance := create_instance registry item in
  if withFallbackCheck then fallback_check registry item instance else ret tt.

(** The function handed to [expect] at lines 105-129. *)
Definition default_value_check
    (registry : Registry) (location : string) (item : StorageEntryMetadata)
    (fails : list string) (withThrow withFallbackCheck : bool) : M unit :=
  try_catch
    (decode_fallback registry item withFallbackCheck)
    (fun error =>
       let message := location +:+ ":: " +:+ message error in
       if withThrow && negb (some (fun f => includes location f) fails)
       then throw (new_Error message)
       else console_warn message).

(** The callback of the inner [forEach] (lines 100-131). *)
Definition each_item
    (registry : Registry) (fails : list string) (withThrow withFallbackCheck : bool)
    (sectionName : string) (item : StorageEntryMetadata) : Collect unit :=
  let* inner := run (call registry
                       (Call_unwrapStorageType registry (item_type item)
                          (isOptional (modifier item)))
                       (unwrapStorageType (item_type item) (isOptional (modifier item)))) in
  let location := sectionName +:+ "." +:+ stringCamelCase (item_name item)
                    +:+ ": " +:+ inner in
  it location
     (expect_not_toThrow
        (default_value_check registry location item fails withThrow withFallbackCheck)).

(** The callback of the outer [forEach] (lines 97-132). *)
Definition each_pallet
    (registry : Registry) (fails : list string) (withThrow withFallbackCheck : bool)
    (pallet : PalletMetadata) : Collect unit :=
  let sectionName := stringCamelCase (pallet_name pallet) in
  match storage pallet with
  | None => throw (new_Error "Option: unwrapping a None value")
  | Some st =>
      forEach (items st) (each_item registry fails withThrow withFallbackCheck sectionName)
  end.

(** [storage.isSome] *)
Definition isSome {A} (o : option A) : bool :=
  match o with Some _ => true | None => false end.

(** [fails = []], [withThrow = true] and [withFallbackCheck = false] when
    omitted. *)
Definition defaultValues
    (registry : Registry) (check : Check)
    (withThrow withFallbackCheck : option bool) : Collect unit :=
  let fails := default [] (fails check) in
  let withThrow := default true withThrow in
  let withFallbackCheck := default false withFallbackCheck in
  describe "storage with default values"
    (let* metadata := run (call registry (Call_new_Metadata registry (data check))
                             (new_Metadata (data check))) in
     let* latest := run (call registry (Call_asLatest metadata) (asLatest metadata)) in
     forEach (List.filter (fun pallet => isSome (storage pallet)) (pallets latest))
       (each_pallet registry fails withThrow withFallbackCheck)).

Definition serialize (registry : Registry) (check : Check) : Collect unit :=
  let* metadata := run (call registry (Call_new_Metadata registry (data check))
                          (new_Metadata (data check))) in
  it "serializes to hex in the same form as retrieved"
     (let* hex := call registry (Call_Metadata_toHex metadata) (Metadata_toHex metadata) in
      expect_toEqual_string hex (data check));;
  it_skip "can construct from a re-serialized form"
     (expect_not_toThrow
        (let* hex := call registry (Call_Metadata_toHex metadata) (Metadata_toHex metadata) in
         call registry (Call_new_Metadata registry hex) (new_Metadata hex)));;
  it "can construct from asCallsOnly.toHex()"
     (expect_not_toThrow
        (let* callsOnly := call registry (Call_asCallsOnly metadata) (asCallsOnly metadata) in
         let* hex := call registry (Call_Metadata_toHex callsOnly) (Metadata_toHex callsOnly) in
         call registry (Call_new_Metadata registry hex) (new_Metadata hex))).

(** [new TypeRegistry()] *)
Definition new_registry : M Registry :=
  fun w =>
    let id := next_registry w in
    (Ok id, mkWorld (fun i => if Nat.eqb i id then new_TypeRegistry else regs w i)
              (S id) (cwd w) (env w) (files w) (write_errors w) (console w) (calls w)).

(** [withFallback = true] when omitted; [matchers] lists the entries of
    the record in the order [Object.entries] yields them. *)
Definition testMeta
    (version : Z) (matchers : list (string * Check)) (withFallback : option bool)
  : Collect unit :=
  let withFallback := default true withFallback in
  describe ("MetadataV" +:+ number_toString version)
    (forEach matchers
       (fun entry =>
          let type := fst entry in
          let matcher := snd entry in
          let* registry := run new_registry in
          describe type
            (serialize registry matcher;;
             decodeLatestMeta registry type version matcher;;
             toLatest registry version matcher None;;
             defaultValues registry matcher (Some true) (Some withFallback)))).

(** ** Notions used in the statements *)

(** [f] occurs in [s]. *)
Definition occurs_in (f s : string) : Prop :=
  exists pre post : string, s = pre +:+ f +:+ post.

(** The tree [j] without the subtree at [path]: the last key of the path
    is removed from the object that holds it, and nothing else changes.
    A path that does not lead to an object leaves the tree as it is. *)
Fixpoint remove_at (path : list string) (j : JSON) : JSON :=
  match path with
  | [] => j
  | k :: rest =>
      match j with
      | JObject props =>
          match rest with
          | [] => JObject (assoc_remove k props)
          | _ :: _ =>
              match assoc k props with
              | Some child => JObject (assoc_set k (remove_at rest child) props)
              | None => j
              end
          end
      | _ => j
      end
  end.

(** Two paths part ways: at some depth both have a key and the keys differ. *)
Definition diverges (q p : list string) : Prop :=
  exists (i : nat) (k k' : string), q !! i = Some k /\ p !! i = Some k' /\ k <> k'.

(** The file [getJsonName] names. *)
Definition fixture_file (w : World) (version : Z) (type : string) (sub : Sub) : string :=
  path_join (cwd w)
    ("packages/types-support/src/metadata/v" +:+ number_toString version
       +:+ "/" +:+ type +:+ "-" +:+ Sub_toString sub +:+ ".json").

(** The golden fixture [readJson] returns, if the file is there and parses. *)
Definition stored_fixture (w : World) (version : Z) (type : string) (sub : Sub)
  : option JSON :=
  match files w !! fixture_file w version type sub with
  | Some text =>
      match JSON_parse text with
      | Ok fixture => Some fixture
      | Throw _ => None
      end
  | None => None
  end.

(** The continuous-integration signal: [process.env.GITHUB_REPOSITORY] is
    set to a non-empty string. *)
Definition in_CI (w : World) : bool := truthy (env w !! "GITHUB_REPOSITORY").

(** The world after [console.error(error)] and [writeJson(json, ...)]. *)
Definition reconciled (error : Error) (json : JSON) (version : Z) (type : string)
    (sub : Sub) (w : World) : World :=
  with_file (fixture_file w version type sub) (stringify json 2)
    (with_console (console_error_line error) w).

(** The produced tree agrees with the stored fixture. *)
Definition matches_fixture (json : JSON) (w : World) (version : Z) (type : string)
    (sub : Sub) : bool :=
  match stored_fixture w version type sub with
  | Some fixture => deepEqual json fixture
  | None => false
  end.

(** No pattern of the allow-list occurs in the location. *)
Definition not_exempt (fails : list string) (location : string) : Prop :=
  forall f, In f fails -> ~ occurs_in f location.

(** The check [each_item] registers for [item], given the type name
    [inner] that [unwrapStorageType] returned. *)
Definition item_check
    (registry : Registry) (fails : list string) (withThrow withFallbackCheck : bool)
    (suite : list string) (sectionName : string) (item : StorageEntryMetadata)
    (inner : string) : Test :=
  let location := sectionName +:+ "." +:+ stringCamelCase (item_name item)
                    +:+ ": " +:+ inner in
  mkTest suite location false
    (expect_not_toThrow
       (default_value_check registry location item fails withThrow withFallbackCheck)).

(** The storage items [defaultValues] visits, in order, each with its pallet. *)
Definition storage_items (ps : list PalletMetadata)
  : list (PalletMetadata * StorageEntryMetadata) :=
  flat_map (fun p => match storage p with
                     | Some st => map (pair p) (items st)
                     | None => []
                     end) ps.

(** The location of a storage item (line 102): the pallet's section name,
    the item's name and the type name [unwrapStorageType] returned. *)
Definition item_location
    (p : PalletMetadata) (item : StorageEntryMetadata) (inner : string) : string :=
  stringCamelCase (pallet_name p) +:+ "." +:+ stringCamelCase (item_name item)
    +:+ ": " +:+ inner.

(** [unwrapStorageType] (line 101) called on the storage items in turn,
    the state of the registry passed from one call to the next, up to the
    first call that throws: the items reached, each with the type name it
    got, how the walk ended, and the state of the registry after it. *)
Fixpoint unwrap_items (its : list (PalletMetadata * StorageEntryMetadata)) (s : Reg)
  : list (PalletMetadata * StorageEntryMetadata * string) * Res unit * Reg :=
  match its with
  | [] => ([], Ok tt, s)
  | pi :: rest =>
      match unwrapStorageType (item_type (snd pi)) (isOptional (modifier (snd pi))) s with
      | (Ok inner, s') =>
          let walk := unwrap_items rest s' in
          ((pi, inner) :: fst (fst walk), snd (fst walk), snd walk)
      | (Throw e, s') => ([], Throw e, s')
      end
  end.

(** The check registered for a storage item that the walk reached. *)
Definition storage_check
    (registry : Registry) (fails : list string) (withThrow withFallbackCheck : bool)
    (suite : list string) (v : PalletMetadata * StorageEntryMetadata * string) : Test :=
  item_check registry fails withThrow withFallbackCheck suite
    (stringCamelCase (pallet_name (fst (fst v)))) (snd (fst v)) (snd v).

(** [c1] is [c0] with the checks [new] added. *)
Definition extends (c0 c1 : Collector) (new : list Test) : Prop :=
  path c1 = path c0 /\ suite_errors c1 = suite_errors c0 /\
  tests c1 = (tests c0 ++ new)%list.

(** [w'] differs from [w] at most in the state of registry [r], in the
    calls recorded after those of [w], in console lines added after those
    of [w] (none unless [may_log]) and in the files [may_write] admits;
    what can be written stays as it was. *)
Definition touches (r : Registry) (may_log : bool) (may_write : string -> Prop)
    (w w' : World) : Prop :=
  next_registry w' = next_registry w /\
  cwd w' = cwd w /\
  env w' = env w /\
  (forall i, i <> r -> regs w' i = regs w i) /\
  (exists more, calls w' = (calls w ++ more)%list) /\
  (exists lines, console w' = (console w ++ lines)%list /\
                 (may_log = false -> lines = [])) /\
  (forall p, ~ may_write p -> files w' !! p = files w !! p) /\
  write_errors w' = write_errors w.

(** No file may be written. *)
Definition no_file : string -> Prop := fun _ => False.

(** Whatever world [m] starts in, it ends in one related to it by [R]. *)
Definition preserves {A} (R : World -> World -> Prop) (m : M A) : Prop :=
  forall w, R w (snd (m w)).

(** A registration step relates the worlds before and after it by [R]
    and only adds checks, each filed under the current suite or below it
    and with a body in [P]. *)
Definition registers {A} (R : World -> World -> Prop) (P : M unit -> Prop)
    (m : Collect A) : Prop :=
  forall c,
    R (world c) (world (snd (m c))) /\
    path (snd (m c)) = path c /\
    exists new, tests (snd (m c)) = (tests c ++ new)%list /\
                Forall (fun t => (exists below, suite t = (path c ++ below)%list) /\
                                 P (body t)) new.

(** The two fixture files of one fixture. *)
Definition own_fixtures (w : World) (version : Z) (type : string) : string -> Prop :=
  fun p => p = fixture_file w version type sub_json \/
           p = fixture_file w version type sub_types.

(** A check that, in any world, stays within registry [r], the console
    and the two fixture files of [(version, type)], and that writes no
    file at all when GITHUB_REPOSITORY is set. *)
Definition confined (r : Registry) (version : Z) (type : string) (body : M unit) : Prop :=
  forall w,
    touches r true (own_fixtures w version type) w (snd (body w)) /\
    (in_CI w = true -> files (snd (body w)) = files w).

End Model.

(** ** A miniature codec

    A small, executable implementation of the interface, used to run the
    helpers on concrete fixtures. *)
Module Mini.

Record metadata : Type := mkMetadata { m_version : Z; m_hex : string }.

#[export] Instance types : CodecTypes := {|
  Reg := option metadata;       (* the metadata the registry is bound to *)
  Metadata := metadata;
  PortableRegistry := list string;
  StorageEntryType := nat;
  SiLookupTypeId := nat;
  Codec := list Byte.byte
|}.

Definition v14_hex : string := "0x6d6574610e".
Definition v9_hex : string := "0x6d65746109".
(** A blob with a trailing byte that decoding drops. *)
Definition v14_padded_hex : string := "0x6d6574610e00".

Definition decode (hex : string) : ST (option metadata) metadata :=
  if String.eqb hex v14_hex then ret (mkMetadata 14 v14_hex)
  else if String.eqb hex v9_hex then ret (mkMetadata 9 v9_hex)
  else if String.eqb hex v14_padded_hex then ret (mkMetadata 14 v14_hex)
  else throw (new_Error "MagicNumber mismatch").

Definition tree (m : metadata) : JSON :=
  JObject
    [("magicNumber", JNumber 1635018093);
     ("metadata",
       JObject
         [("v" +:+ number_toString (m_version m),
            JObject
              [("lookup", JObject [("types", JArray [JString "u32"])]);
               ("pallets", JArray [JString "System"; JString "Utility"]);
               ("extrinsic", JObject [("version", JNumber 4)])])])].

Definition number_item : StorageEntryMetadata :=
  {| item_name := "Number"; modifier := Default; item_type := 0%nat;
     fallback := [Byte.x00; Byte.x00; Byte.x00; Byte.x00] |}.

Definition digest_item : StorageEntryMetadata :=
  {| item_name := "Digest"; modifier := Optional; item_type := 1%nat;
     fallback := [Byte.x00; Byte.x2a] |}.

Definition legacy_item : StorageEntryMetadata :=
  {| item_name := "Legacy"; modifier := Default; item_type := 2%nat;
     fallback := [Byte.xff] |}.

Definition system_storage : PalletStorageMetadata :=
  {| items := [number_item; digest_item; legacy_item] |}.

Definition latest : MetadataLatest :=
  {| pallets :=
       [ {| pallet_name := "System"; storage := Some system_storage |};
         {| pallet_name := "Utility"; storage := None |} ];
     lookup := ["u32"] |}.

Definition type_name (ty : nat) : string :=
  match ty with
  | O => "u32"
  | S O => "Option<Bytes>"
  | _ => "Legacy"
  end.

(** Type 1 keeps only the first byte of its input; type 2 never decodes. *)
Definition create (typeName : string) (params : list (list Byte.byte)) (isOpt : bool)
  : ST (option metadata) (list Byte.byte) :=
  match params with
  | [u8a] =>
      if String.eqb typeName "Legacy" then throw (new_Error "unable to decode")
      else if String.eqb typeName "Option<Bytes>" then ret (take 1 u8a)
      else ret u8a
  | _ => throw (new_Error "expected one parameter")
  end.

Definition nibble (c : ascii) : option N :=
  let n := N_of_ascii c in
  if (48 <=? n)%N && (n <=? 57)%N then Some (n - 48)%N
  else if (97 <=? n)%N && (n <=? 102)%N then Some (n - 87)%N
  else None.

Fixpoint bytes_of_hex (s : string) : option (list Byte.byte) :=
  match s with
  | EmptyString => Some []
  | String hi (String lo rest) =>
      match nibble hi, nibble lo, bytes_of_hex rest with
      | Some h, Some l, Some bs =>
          match Byte.of_N (h * 16 + l) with
          | Some b => Some (b :: bs)
          | None => None
          end
      | _, _, _ => None
      end
  | _ => None
  end.

Definition from_hex (s : string) : Res (list Byte.byte) :=
  match s with
  | String "0" (String "x" digits) =>
      match bytes_of_hex digits with
      | Some bs => Ok bs
      | None => Throw (new_Error "Expected hex value to convert")
      end
  | _ => Throw (new_Error "Expected hex value to convert")
  end.

Definition lower_first (s : string) : string :=
  match s with
  | String c rest =>
      let n := N_of_ascii c in
      String (if (65 <=? n)%N && (n <=? 90)%N then ascii_of_N (n + 32) else c) rest
  | EmptyString => EmptyString
  end.

Fixpoint json_eqb (a b : JSON) {struct a} : bool :=
  match a, b with
  | JNull, JNull => true
  | JBool x, JBool y => Bool.eqb x y
  | JNumber x, JNumber y => Z.eqb x y
  | JString x, JString y => String.eqb x y
  | JArray xs, JArray ys =>
      (fix all2 (xs ys : list JSON) {struct xs} : bool :=
         match xs, ys with
         | [], [] => true
         | x :: xs', y :: ys' => json_eqb x y && all2 xs' ys'
         | _, _ => false
         end) xs ys
  | JObject xs, JObject ys =>
      (fix all2 (xs ys : list (string * JSON)) {struct xs} : bool :=
         match xs, ys with
         | [], [] => true
         | (k, x) :: xs', (l, y) :: ys' => String.eqb k l && json_eqb x y && all2 xs' ys'
         | _, _ => false
         end) xs ys
  | _, _ => false
  end.

Fixpoint print (j : JSON) : string :=
  match j with
  | JNull => "null"
  | JBool true => "true"
  | JBool false => "false"
  | JNumber n => number_toString n
  | JString s => "'" +:+ s +:+ "'"
  | JArray xs => "[" +:+ fold_right (fun x acc => print x +:+ "," +:+ acc) EmptyString xs +:+ "]"
  | JObject kvs =>
      "{" +:+ fold_right (fun kv acc => fst kv +:+ ":" +:+ print (snd kv) +:+ "," +:+ acc) EmptyString kvs +:+ "}"
  end.

(** The trees this codec can produce, which is all the parser has to read
    back. *)
Definition known_trees : list JSON :=
  [ JArray [JString "u32"];
    JObject
      [("magicNumber", JNumber 1635018093);
       ("metadata",
         JObject
           [("v14",
              JObject
                [("pallets", JArray [JString "System"; JString "Utility"]);
                 ("extrinsic", JObject [("version", JNumber 4)])])])] ].

Definition parse (text : string) : Res JSON :=
  match List.find (fun j => String.eqb (print j) text) known_trees with
  | Some j => Ok j
  | None => Throw (mkError "SyntaxError" "Unexpected token in JSON")
  end.

#[export] Instance collaborators : Collaborators := {|
  new_TypeRegistry := None;
  new_Metadata := decode;
  setMetadata := fun m _ => (Ok tt, Some m);
  Metadata_version := m_version;
  Metadata_toHex := fun m => ret (m_hex m);
  Metadata_toJSON := fun m => ret (tree m);
  asLatest := fun _ => ret latest;
  asCallsOnly := fun m => ret m;
  types_toJSON := fun types => ret (JArray (map JString types));
  getUniqTypes := fun l _ => ret (map pallet_name (pallets l));
  getUniqTypes_prints := fun l withThrow _ =>
    if withThrow then [] else [console_warn_line "(!) Duplicate type definitions found"];
  unwrapStorageType := fun ty _ => ret (type_name ty);
  unwrapStorageSi := fun ty => ret ty;
  createLookupType := fun id => ret (type_name id);
  createTypeUnsafe := create;
  toHex := fun c => ret (u8aToHex c);
  toU8a := fun c _ => ret c;
  stringCamelCase := lower_first;
  hexToU8a := from_hex;
  stringify := fun j _ => print j;
  JSON_parse := parse;
  path_join := fun a b => a +:+ "/" +:+ b;
  deepEqual := json_eqb
|}.

(** A developer's checkout with no fixtures yet. *)
Definition empty_world : World :=
  mkWorld (fun _ => None) 0%nat "/repo" ∅ ∅ ∅ [] [].

(** A continuous-integration run whose 'json' fixture holds another tree. *)
Definition ci_world : World :=
  mkWorld (fun _ => None) 0%nat "/repo"
    {[ "GITHUB_REPOSITORY" := "polkadot-js/api" ]}
    {[ "/repo/packages/types-support/src/metadata/v14/substrate-json.json" := "['u32',]" ]}
    ∅ [] [].

(** A checkout without fixtures in which the 'json' fixture of the sample
    cannot be written. *)
Definition readonly_world : World :=
  mkWorld (fun _ => None) 0%nat "/repo" ∅ ∅
    {[ "/repo/packages/types-support/src/metadata/v14/substrate-json.json"
         := new_Error "EACCES: permission denied" ]}
    [] [].

Definition start (w : World) : Collector := mkCollector w [] [] [].

(** Sample fixtures. *)
Definition substrate : Check := mkCheck v14_hex None.
Definition legacy_chain : Check := mkCheck v9_hex None.
Definition tolerant : Check := mkCheck v14_hex (Some ["legacy"]).
Definition lenient : Check := mkCheck v14_hex (Some [EmptyString]).

Definition m14 : Metadata := mkMetadata 14 v14_hex.
Definition m9 : Metadata := mkMetadata 9 v9_hex.

(** A version-9 tree: nothing called [lookup] in it. *)
Definition v9_tree : JSON :=
  JObject
    [("magicNumber", JNumber 1635018093);
     ("metadata", JObject [("v9", JObject [("modules", JArray [JString "System"])])])].

(** The version-14 tree as it is compared, and a checkout that stores it. *)
Definition golden : JSON :=
  JObject
    [("magicNumber", JNumber 1635018093);
     ("metadata",
       JObject
         [("v14",
            JObject
              [("pallets", JArray [JString "System"; JString "Utility"]);
               ("extrinsic", JObject [("version", JNumber 4)])])])].

Definition golden_world : World :=
  mkWorld (fun _ => None) 0%nat "/repo" ∅
    {[ "/repo/packages/types-support/src/metadata/v14/substrate-json.json" := print golden ]}
    ∅ [] [].

(** A fixture whose data is not metadata. *)
Definition broken : Check := mkCheck "0x00" None.

End Mini.

(** * Properties *)

(** ** Substrings *)

Lemma prefix_iff (f s : string) :
  String.prefix f s = true <-> exists post, s = f +:+ post.
Proof.
  revert s; induction f as [|c f IH]; intros s.
  - split; [intros _; now exists s | intros _; now destruct s].
  - destruct s as [|d s]; simpl;
      [split; [discriminate | intros [post Hp]; discriminate]|].
    destruct (Ascii.ascii_dec c d) as [->|Hne].
    + rewrite IH. split; intros [post Hp]; exists post; [now rewrite Hp | now injection Hp].
    + split; [discriminate | intros [post Hp]; injection Hp as E _; congruence].
Qed.

Lemma includes_nil (f : string) :
  includes EmptyString f = String.prefix f EmptyString || false.
Proof. reflexivity. Qed.

Lemma includes_cons (c : ascii) (s f : string) :
  includes (String c s) f = String.prefix f (String c s) || includes s f.
Proof. reflexivity. Qed.

Lemma includes_iff (s f : string) : includes s f = true <-> occurs_in f s.
Proof.
  induction s as [|c s IH].
  - rewrite includes_nil, orb_false_r, prefix_iff. split.
    + intros [post Hp]. now exists EmptyString, post.
    + intros [[|d pre] [post Hp]]; [now exists post | discriminate].
  - rewrite includes_cons, orb_true_iff, prefix_iff, IH. split.
    + intros [[post Hp] | [pre [post Hp]]].
      * now exists EmptyString, post.
      * exists (String c pre), post. now rewrite Hp.
    + intros [[|d pre] [post Hp]].
      * left. now exists post.
      * right. exists pre, post. now injection Hp.
Qed.

Lemma includes_empty (s : string) : includes s EmptyString = true.
Proof. apply includes_iff. now exists EmptyString, s. Qed.

Lemma some_includes_iff (location : string) (fails : list string) :
  some (fun f => includes location f) fails = true
  <-> exists f, In f fails /\ occurs_in f location.
Proof.
  unfold some. rewrite existsb_exists.
  split; intros [f [Hin Hf]]; exists f; split; auto; now apply includes_iff.
Qed.

(** ** Hex strings *)

Lemma hex_of_bytes_length (u8a : list Byte.byte) :
  String.length (hex_of_bytes u8a) = (2 * List.length u8a)%nat.
Proof. induction u8a as [|b rest IH]; simpl; [reflexivity | rewrite IH; lia]. Qed.

Lemma u8aToHex_length (u8a : list Byte.byte) :
  str_length (u8aToHex u8a) = 2 + 2 * Z.of_nat (List.length u8a).
Proof.
  unfold str_length, u8aToHex.
  change (String.length ("0x" +:+ hex_of_bytes u8a))
    with (S (S (String.length (hex_of_bytes u8a)))).
  rewrite hex_of_bytes_length. lia.
Qed.

(** The number of bytes behind a hex string, as line 117 computes it. *)
Lemma hex_byte_count (u8a : list Byte.byte) :
  (str_length (u8aToHex u8a) - 2) / 2 = Z.of_nat (List.length u8a).
Proof.
  rewrite u8aToHex_length.
  replace (2 + 2 * Z.of_nat (List.length u8a) - 2) with (Z.of_nat (List.length u8a) * 2) by lia.
  apply Z.div_mul. lia.
Qed.

Lemma hex_digit_inj (a b : N) :
  (a < 16)%N -> (b < 16)%N -> hex_digit a = hex_digit b -> a = b.
Proof.
  intros Ha Hb.
  assert (Hcases : forall n, (n < 16)%N ->
            In n [0; 1; 2; 3; 4; 5; 6; 7; 8; 9; 10; 11; 12; 13; 14; 15]%N).
  { intros n Hn. simpl.
    destruct n as [|p]; [auto|].
    do 4 (destruct p as [p|p|]; try lia; auto 20). }
  pose proof (Hcases a Ha) as Ia. pose proof (Hcases b Hb) as Ib.
  simpl in Ia, Ib.
  repeat (destruct Ia as [<-|Ia]; [repeat (destruct Ib as [<-|Ib]; [simpl; congruence|]); contradiction|]).
  contradiction.
Qed.

Lemma byte_to_N_inj (a b : Byte.byte) : Byte.to_N a = Byte.to_N b -> a = b.
Proof.
  intros E. pose proof (Byte.of_to_N a) as Ha. pose proof (Byte.of_to_N b) as Hb.
  rewrite E in Ha. congruence.
Qed.

Lemma hex_of_bytes_inj (xs ys : list Byte.byte) :
  hex_of_bytes xs = hex_of_bytes ys -> xs = ys.
Proof.
  revert ys; induction xs as [|x xs IH]; intros [|y ys] E; simpl in E;
    try discriminate; [reflexivity|].
  injection E as Ehi Elo Erest.
  pose proof (Byte.to_N_bounded x) as Bx. pose proof (Byte.to_N_bounded y) as By.
  apply hex_digit_inj in Ehi;
    [| apply N.Div0.div_lt_upper_bound; lia | apply N.Div0.div_lt_upper_bound; lia].
  apply hex_digit_inj in Elo; [| apply N.mod_lt; lia | apply N.mod_lt; lia].
  f_equal; [| now apply IH].
  apply byte_to_N_inj.
  rewrite (N.div_mod (Byte.to_N x) 16), (N.div_mod (Byte.to_N y) 16) by lia.
  congruence.
Qed.

Lemma u8aToHex_eqb (xs ys : list Byte.byte) :
  String.eqb (u8aToHex xs) (u8aToHex ys) = true <-> xs = ys.
Proof.
  rewrite String.eqb_eq. split; [|now intros ->].
  unfold u8aToHex. intros E. injection E as E. now apply hex_of_bytes_inj.
Qed.

(** ** Removing a subtree *)

Lemma assoc_set_eq (key : string) (v old : JSON) (props : list (string * JSON)) :
  assoc key props = Some old -> assoc key (assoc_set key v props) = Some v.
Proof.
  induction props as [|[k x] rest IH]; simpl; [discriminate|].
  destruct (String.eqb k key) eqn:E; simpl; rewrite E; auto.
Qed.

Lemma assoc_set_ne (key k : string) (v : JSON) (props : list (string * JSON)) :
  k <> key -> assoc k (assoc_set key v props) = assoc k props.
Proof.
  intros Hne. induction props as [|[k0 x] rest IH]; simpl; [reflexivity|].
  destruct (String.eqb k0 key) eqn:E; simpl.
  - apply String.eqb_eq in E. subst k0.
    destruct (String.eqb key k) eqn:E2; [apply String.eqb_eq in E2; congruence | reflexivity].
  - destruct (String.eqb k0 k); auto.
Qed.

Lemma assoc_remove_eq (key : string) (props : list (string * JSON)) :
  assoc key (assoc_remove key props) = None.
Proof.
  induction props as [|[k x] rest IH]; simpl; [reflexivity|].
  destruct (String.eqb k key) eqn:E; simpl; [assumption | now rewrite E].
Qed.

Lemma assoc_remove_ne (key k : string) (props : list (string * JSON)) :
  k <> key -> assoc k (assoc_remove key props) = assoc k props.
Proof.
  intros Hne. induction props as [|[k0 x] rest IH]; simpl; [reflexivity|].
  destruct (String.eqb k0 key) eqn:E; simpl.
  - apply String.eqb_eq in E. subst k0.
    destruct (String.eqb key k) eqn:E2; [apply String.eqb_eq in E2; congruence | assumption].
  - destruct (String.eqb k0 k); auto.
Qed.

(** Nothing is left at or below a removed path. *)
Lemma remove_at_gone (p q : list string) (j : JSON) :
  p <> [] -> lookup_path (remove_at p j) (p ++ q) = None.
Proof.
  revert j; induction p as [|k rest IH]; intros j Hp; [congruence|].
  destruct j as [| | | | |props]; try reflexivity.
  destruct rest as [|k2 rest2].
  - simpl. now rewrite assoc_remove_eq.
  - cbn [remove_at]. destruct (assoc k props) as [child|] eqn:E.
    + cbn [lookup_path app]. rewrite (assoc_set_eq _ _ _ _ E).
      apply (IH child). discriminate.
    + cbn [lookup_path app]. now rewrite E.
Qed.

(** Everything off the removed path is as it was. *)
Lemma remove_at_frame (p q : list string) (j : JSON) :
  diverges q p -> lookup_path (remove_at p j) q = lookup_path j q.
Proof.
  revert q j; induction p as [|k rest IH]; intros q j (i & a & b & Hq & Hp & Hne).
  - destruct i; discriminate.
  - destruct j as [| | | | |props]; try reflexivity.
    destruct q as [|k0 q']; [now destruct i|].
    destruct (String.eqb_spec k0 k) as [->|Hk].
    + destruct i as [|i]; [simpl in Hq, Hp; congruence|].
      simpl in Hq, Hp.
      destruct rest as [|k2 rest2]; [destruct i; discriminate|].
      cbn [remove_at]. destruct (assoc k props) as [child|] eqn:E; [|reflexivity].
      cbn [lookup_path]. rewrite (assoc_set_eq _ _ _ _ E), E.
      apply IH. now exists i, a, b.
    + destruct rest as [|k2 rest2]; cbn [remove_at].
      * cbn [lookup_path]. now rewrite assoc_remove_ne.
      * destruct (assoc k props) as [child|]; [|reflexivity].
        cbn [lookup_path]. now rewrite assoc_set_ne.
Qed.

Lemma assoc_set_same (key : string) (v : JSON) (props : list (string * JSON)) :
  assoc key props = Some v -> assoc_set key v props = props.
Proof.
  induction props as [|[k x] rest IH]; simpl; [reflexivity|].
  destruct (String.eqb k key) eqn:E.
  - intros [= ->]. reflexivity.
  - intros Hrest. now rewrite IH.
Qed.

(** Line 42 removes the subtree at [metadata.<v>.lookup] and nothing else. *)
Lemma delete_lookup_remove_at (json json' : JSON) (v : string) :
  delete_lookup json v = Ok json' ->
  json' = remove_at ["metadata"; v; "lookup"] json.
Proof.
  unfold delete_lookup, get_prop.
  destruct json as [| | | | |props]; try discriminate.
  cbn [remove_at].
  destruct (assoc "metadata" props) as [md|] eqn:Emd; [|discriminate].
  destruct md as [| | | | |mdprops]; try discriminate.
  destruct (assoc v mdprops) as [o|] eqn:Eo; [|discriminate].
  destruct o as [| | | | |oprops]; try discriminate; intros [= <-];
    try (now rewrite (assoc_set_same _ _ _ Eo), (assoc_set_same _ _ _ Emd)).
  reflexivity.
Qed.

(** ** The helpers *)

Section Harness.
Context {T : CodecTypes} {K : Collaborators}.

(** Evaluation of the monad's operations. *)

Lemma bind_ok {S A B} (m : ST S A) (k : A -> ST S B) (s s' : S) (a : A) :
  m s = (Ok a, s') -> bind m k s = k a s'.
Proof. intros E. unfold bind. now rewrite E. Qed.

Lemma bind_throw {S A B} (m : ST S A) (k : A -> ST S B) (s s' : S) (e : Error) :
  m s = (Throw e, s') -> bind m k s = (Throw e, s').
Proof. intros E. unfold bind. now rewrite E. Qed.

Lemma call_eq {A} (registry : Registry) (ev : Event) (op : ST Reg A)
    (w : World) (r : Res A) (s : Reg) :
  op (regs w registry) = (r, s) ->
  call registry ev op w = (r, with_call ev (with_reg registry s w)).
Proof. intros E. unfold call. now rewrite E. Qed.

Lemma call_printing_eq {A} (registry : Registry) (ev : Event) (op : ST Reg A)
    (prints : Reg -> list ConsoleLine) (w : World) (r : Res A) (s : Reg) :
  op (regs w registry) = (r, s) ->
  call_printing registry ev op prints w
  = (r, with_lines (prints (regs w registry)) (with_call ev (with_reg registry s w))).
Proof. intros E. unfold call_printing. now rewrite E. Qed.

Lemma run_eq {A} (m : M A) (c : Collector) (r : Res A) (w : World) :
  m (world c) = (r, w) ->
  run m c = (r, mkCollector w (path c) (tests c) (suite_errors c)).
Proof. intros E. unfold run. now rewrite E. Qed.

Lemma run_call_eq {A} (registry : Registry) (ev : Event) (op : ST Reg A)
    (c : Collector) (r : Res A) (s : Reg) :
  op (regs (world c) registry) = (r, s) ->
  run (call registry ev op) c
  = (r, mkCollector (with_call ev (with_reg registry s (world c)))
          (path c) (tests c) (suite_errors c)).
Proof. intros E. apply run_eq. now apply call_eq. Qed.

(** *** serialize *)

(** C1.  Once [check.data] has decoded, [serialize] registers the check
    'serializes to hex in the same form as retrieved', and that check
    passes exactly when [metadata.toHex()] returns a string equal to
    [check.data]. *)
Theorem serialize_reencodes_identically
    (registry : Registry) (check : Check) (c : Collector)
    (metadata : Metadata) (s : Reg) :
  new_Metadata (data check) (regs (world c) registry) = (Ok metadata, s) ->
  exists (t t2 t3 : Test) (c' : Collector),
    serialize registry check c = (Ok tt, c') /\
    tests c' = (tests c ++ [t; t2; t3])%list /\
    title t = "serializes to hex in the same form as retrieved" /\
    skipped t = false /\
    forall w : World,
      fst (body t w) = Ok tt
      <-> fst (Metadata_toHex metadata (regs w registry)) = Ok (data check).
Proof.
  intros Hdec. unfold serialize.
  rewrite (bind_ok _ _ _ _ _ (run_call_eq _ _ _ _ _ _ Hdec)).
  eexists _, _, _, _. split; [reflexivity|]. simpl.
  split; [rewrite <- !app_assoc; reflexivity|].
  split; [reflexivity|]. split; [reflexivity|].
  intros w. simpl. unfold bind, call, expect_toEqual_string, ret, throw.
  destruct (Metadata_toHex metadata (regs w registry)) as [[hex|e] s']; simpl.
  - destruct (String.eqb hex (data check)) eqn:E; simpl.
    + apply String.eqb_eq in E. subst. tauto.
    + apply String.eqb_neq in E. split; [discriminate | congruence].
  - split; discriminate.
Qed.

(** *** decodeLatestMeta *)

Lemma getJsonName_eq (version : Z) (type : string) (sub : Sub) (w : World) :
  getJsonName version type sub w = (Ok (fixture_file w version type sub), w).
Proof. reflexivity. Qed.

Lemma readJson_eq (version : Z) (type : string) (sub : Sub) (w : World) :
  readJson version type sub w
  = match files w !! fixture_file w version type sub with
    | Some text => (JSON_parse text, w)
    | None => (Throw (new_Error ("ENOENT: no such file or directory, open '"
                                   +:+ fixture_file w version type sub +:+ "'")), w)
    end.
Proof.
  unfold readJson. rewrite (bind_ok _ _ _ _ _ (getJsonName_eq version type sub w)).
  unfold bind, readFileSync, of_res.
  now destruct (files w !! fixture_file w version type sub).
Qed.

Lemma compare_or_write_match (json fixture : JSON) (version : Z) (type : string)
    (sub : Sub) (w : World) :
  stored_fixture w version type sub = Some fixture ->
  deepEqual json fixture = true ->
  compare_or_write json version type sub w = (Ok tt, w).
Proof.
  unfold stored_fixture, compare_or_write, try_catch, readJson, bind, readFileSync,
    of_res, expect_toEqual.
  rewrite getJsonName_eq.
  destruct (files w !! fixture_file w version type sub) as [text|]; [|discriminate].
  destruct (JSON_parse text) as [fx|e]; [|discriminate].
  intros [= ->] ->. reflexivity.
Qed.

Lemma writeJson_eq (json : JSON) (version : Z) (type : string) (sub : Sub) (w : World) :
  writeJson json version type sub w
  = match write_errors w !! fixture_file w version type sub with
    | Some e => (Throw e, w)
    | None => (Ok tt, with_file (fixture_file w version type sub) (stringify json 2) w)
    end.
Proof. reflexivity. Qed.

Lemma compare_or_write_caught (json : JSON) (version : Z) (type : string)
    (sub : Sub) (w : World) :
  (forall fixture, stored_fixture w version type sub = Some fixture ->
                   deepEqual json fixture = false) ->
  exists error : Error,
    (let* expected := readJson version type sub in
     expect_toEqual json expected) w = (Throw error, w) /\
    compare_or_write json version type sub w
    = if in_CI w then (Throw error, w)
      else match write_errors w !! fixture_file w version type sub with
           | Some e => (Throw e, with_console (console_error_line error) w)
           | None => (Ok tt, reconciled error json version type sub w)
           end.
Proof.
  intros Hmis.
  assert (Hcatch : forall error,
            (let* repo := process_env "GITHUB_REPOSITORY" in
             if truthy repo then throw error
             else (console_error error;; writeJson json version type sub)) w
            = if in_CI w then (Throw error, w)
              else match write_errors w !! fixture_file w version type sub with
                   | Some e => (Throw e, with_console (console_error_line error) w)
                   | None => (Ok tt, reconciled error json version type sub w)
                   end).
  { intros error. unfold bind, process_env, in_CI, console_error, throw.
    destruct (truthy (env w !! "GITHUB_REPOSITORY")); [reflexivity|].
    rewrite writeJson_eq. reflexivity. }
  assert (Htry : exists error,
            (let* expected := readJson version type sub in
             expect_toEqual json expected) w = (Throw error, w)).
  { unfold stored_fixture in Hmis. unfold bind. rewrite readJson_eq.
    destruct (files w !! fixture_file w version type sub) as [text|]; [|eexists; reflexivity].
    destruct (JSON_parse text) as [fx|e]; [|eexists; reflexivity].
    unfold expect_toEqual. rewrite (Hmis fx eq_refl). eexists. reflexivity. }
  destruct Htry as [error Htry]. exists error. split; [exact Htry|].
  unfold compare_or_write, try_catch. rewrite Htry. apply Hcatch.
Qed.

Lemma compare_or_write_mismatch (json : JSON) (version : Z) (type : string)
    (sub : Sub) (w : World) :
  (forall fixture, stored_fixture w version type sub = Some fixture ->
                   deepEqual json fixture = false) ->
  exists error : Error,
    compare_or_write json version type sub w
    = if in_CI w then (Throw error, w)
      else match write_errors w !! fixture_file w version type sub with
           | Some e => (Throw e, with_console (console_error_line error) w)
           | None => (Ok tt, reconciled error json version type sub w)
           end.
Proof.
  intros Hmis. destruct (compare_or_write_caught json version type sub w Hmis)
    as (error & _ & Hrun).
  now exists error.
Qed.

(** C3 (as amended).  When the check 'decodes latest substrate properly'
    reaches the comparison and no stored fixture is deep-equal to the
    produced tree (the file is missing, does not parse, or holds another
    tree), the comparison of line 47 throws an error.  With
    GITHUB_REPOSITORY set that error is rethrown and nothing is logged or
    written; without it the error is logged with [console.error] and the
    fixture file is written with the produced tree, after which the check
    passes if the write went through and fails with the write's error if
    it threw.  So when the fixture file can be written, the check fails
    exactly when GITHUB_REPOSITORY is set. *)
Theorem fixture_mismatch_fatal_iff_CI
    (registry : Registry) (type : string) (version : Z) (metadata : Metadata)
    (w : World) (tree json : JSON) (s : Reg) :
  Metadata_toJSON metadata (regs w registry) = (Ok tree, s) ->
  delete_lookup tree ("v" +:+ number_toString (Metadata_version metadata)) = Ok json ->
  Metadata_version metadata = version ->
  (forall fixture, stored_fixture w version type sub_json = Some fixture ->
                   deepEqual json fixture = false) ->
  let w1 := with_call (Call_Metadata_toJSON metadata) (with_reg registry s w) in
  let file := fixture_file w version type sub_json in
  let result := decodes_latest_substrate_properly registry type version metadata w in
  exists error : Error,
    (let* expected := readJson version type sub_json in
     expect_toEqual json expected) w1 = (Throw error, w1) /\
    (in_CI w = true -> result = (Throw error, w1)) /\
    (in_CI w = false -> write_errors w !! file = None ->
       result = (Ok tt, reconciled error json version type sub_json w1)) /\
    (in_CI w = false -> forall e, write_errors w !! file = Some e ->
       result = (Throw e, with_console (console_error_line error) w1)) /\
    (write_errors w !! file = None ->
       (is_ok (fst result) = false <-> in_CI w = true)).
Proof.
  intros Htree Hdel Hver Hmis w1 file result.
  destruct (compare_or_write_caught json version type sub_json w1 Hmis)
    as (error & Hthrown & He).
  change (write_errors w1 !! fixture_file w1 version type sub_json)
    with (write_errors w !! file) in He.
  change (in_CI w1) with (in_CI w) in He.
  assert (Hres : result = compare_or_write json version type sub_json w1).
  { subst result. unfold decodes_latest_substrate_properly.
    rewrite (bind_ok _ _ _ _ _ (call_eq _ _ _ _ _ _ Htree)).
    unfold bind at 1, of_res. rewrite Hdel.
    unfold bind at 1, expect_toBe. now rewrite Hver, Z.eqb_refl. }
  exists error. split; [exact Hthrown|]. rewrite Hres, He.
  destruct (in_CI w); destruct (write_errors w !! file) as [e|];
    repeat split; intros; try congruence; try discriminate.
Qed.

Lemma regs_after_call (registry : Registry) (ev : Event) (s : Reg) (w : World) :
  regs (with_call ev (with_reg registry s w)) registry = s.
Proof. simpl. now rewrite Nat.eqb_refl. Qed.

(** What [decodeLatestMeta] registers once [check.data] has decoded and
    been bound to the registry. *)
Lemma decodeLatestMeta_registers
    (registry : Registry) (type : string) (version : Z) (check : Check)
    (c : Collector) (metadata : Metadata) (s1 s2 : Reg) :
  new_Metadata (data check) (regs (world c) registry) = (Ok metadata, s1) ->
  setMetadata metadata s1 = (Ok tt, s2) ->
  decodeLatestMeta registry type version check c
  = (Ok tt,
     mkCollector
       (with_call (Call_setMetadata registry metadata)
          (with_reg registry s2
             (with_call (Call_new_Metadata registry (data check))
                (with_reg registry s1 (world c)))))
       (path c)
       (tests c
          ++ mkTest (path c) "decodes latest substrate properly" false
               (decodes_latest_substrate_properly registry type version metadata)
          :: (if (14 <=? version)%Z
              then [mkTest (path c) "decodes latest types correctly" false
                      (decodes_latest_types_correctly registry type version metadata)]
              else []))%list
       (suite_errors c)).
Proof.
  intros Hdec Hset. unfold decodeLatestMeta.
  rewrite (bind_ok _ _ _ _ _ (run_call_eq _ _ _ _ _ _ Hdec)).
  erewrite bind_ok; cycle 1.
  { apply run_call_eq. cbn [world]. rewrite regs_after_call. exact Hset. }
  unfold bind, it, register, ret. cbn [world path tests suite_errors].
  destruct (14 <=? version)%Z; cbn [world path tests suite_errors];
    rewrite <- ?app_assoc; reflexivity.
Qed.

(** C5.  The check 'decodes latest substrate properly' that
    [decodeLatestMeta] registers for a fixture passes only if the decoded
    [metadata.version] equals the declared [version]; when the two differ
    the check fails and leaves the fixture files and the console as they
    were. *)
Theorem declared_version_is_asserted
    (registry : Registry) (type : string) (version : Z) (check : Check)
    (c : Collector) (metadata : Metadata) (s1 s2 : Reg) :
  new_Metadata (data check) (regs (world c) registry) = (Ok metadata, s1) ->
  setMetadata metadata s1 = (Ok tt, s2) ->
  exists (c' : Collector) (t : Test) (more : list Test),
    decodeLatestMeta registry type version check c = (Ok tt, c') /\
    tests c' = (tests c ++ t :: more)%list /\
    title t = "decodes latest substrate properly" /\
    skipped t = false /\
    forall w : World,
      (fst (body t w) = Ok tt -> Metadata_version metadata = version) /\
      (Metadata_version metadata <> version ->
         is_ok (fst (body t w)) = false /\
         files (snd (body t w)) = files w /\
         console (snd (body t w)) = console w).
Proof.
  intros Hdec Hset.
  eexists _, _, _. split; [exact (decodeLatestMeta_registers _ _ _ _ _ _ _ _ Hdec Hset)|].
  cbn [tests title skipped body].
  split; [reflexivity|]. split; [reflexivity|]. split; [reflexivity|].
  intros w. cbn [body]. unfold decodes_latest_substrate_properly.
  destruct (Metadata_toJSON metadata (regs w registry)) as [[tree|e] s] eqn:Htree.
  2:{ rewrite (bind_throw _ _ _ _ _ (call_eq _ _ _ _ _ _ Htree)).
      split; [discriminate | auto]. }
  rewrite (bind_ok _ _ _ _ _ (call_eq _ _ _ _ _ _ Htree)).
  unfold bind at 1, of_res.
  destruct (delete_lookup tree _) as [json|e].
  2:{ split; [discriminate | auto]. }
  unfold bind at 1, expect_toBe.
  destruct (Z.eqb_spec (Metadata_version metadata) version) as [E|E].
  - split; [auto | contradiction].
  - split; [discriminate | auto].
Qed.

(** C6.  After [toJSON()] the check 'decodes latest substrate properly'
    either stops on a TypeError of the [delete] (nothing is compared), or
    goes on with the tree from which the subtree at
    [metadata.v<version>.lookup] is gone and in which every path that
    parts from that one leads where it led before; with the versions
    equal, that tree is what is compared with, or written to, the 'json'
    fixture. *)
Theorem lookup_removed_before_comparison
    (registry : Registry) (type : string) (version : Z) (metadata : Metadata)
    (w : World) (tree : JSON) (s : Reg) :
  Metadata_toJSON metadata (regs w registry) = (Ok tree, s) ->
  Metadata_version metadata = version ->
  let target := ["metadata"; "v" +:+ number_toString version; "lookup"] in
  let w1 := with_call (Call_Metadata_toJSON metadata) (with_reg registry s w) in
  match delete_lookup tree ("v" +:+ number_toString version) with
  | Ok json =>
      json = remove_at target tree /\
      (forall q, lookup_path json (target ++ q) = None) /\
      (forall q, diverges q target -> lookup_path json q = lookup_path tree q) /\
      decodes_latest_substrate_properly registry type version metadata w
      = compare_or_write json version type sub_json w1
  | Throw e =>
      decodes_latest_substrate_properly registry type version metadata w = (Throw e, w1)
  end.
Proof.
  intros Htree Hver target w1.
  unfold decodes_latest_substrate_properly.
  rewrite (bind_ok _ _ _ _ _ (call_eq _ _ _ _ _ _ Htree)).
  unfold bind at 1, of_res. rewrite Hver.
  destruct (delete_lookup tree _) as [json|e] eqn:Hdel; [|reflexivity].
  apply delete_lookup_remove_at in Hdel. subst json.
  split; [reflexivity|].
  split; [intros q; now apply remove_at_gone|].
  split; [intros q; apply remove_at_frame|].
  unfold bind at 1, expect_toBe. now rewrite Z.eqb_refl.
Qed.

Lemma compare_or_write_eq (json : JSON) (version : Z) (type : string) (sub : Sub)
    (w : World) :
  exists error : Error,
    compare_or_write json version type sub w
    = if matches_fixture json w version type sub then (Ok tt, w)
      else if in_CI w then (Throw error, w)
      else match write_errors w !! fixture_file w version type sub with
           | Some e => (Throw e, with_console (console_error_line error) w)
           | None => (Ok tt, reconciled error json version type sub w)
           end.
Proof.
  unfold matches_fixture.
  destruct (stored_fixture w version type sub) as [fixture|] eqn:Hfx.
  - destruct (deepEqual json fixture) eqn:Heq.
    + exists (new_Error EmptyString). now apply (compare_or_write_match json fixture).
    + apply compare_or_write_mismatch. intros fx Hfx'. congruence.
  - apply compare_or_write_mismatch. intros fx Hfx'. congruence.
Qed.

(** C7.  [decodeLatestMeta] registers the check 'decodes latest types
    correctly' exactly when the declared version is at least 14.  That
    check compares the tree of [asLatest.lookup.types] with the 'types'
    fixture under the same rule as the structural check: a match passes;
    a mismatch is rethrown when GITHUB_REPOSITORY is set, and otherwise
    logged and written to the 'types' fixture file, the check failing
    with the write's error if that write throws. *)
Theorem types_check_iff_version_14
    (registry : Registry) (type : string) (version : Z) (check : Check)
    (c : Collector) (metadata : Metadata) (s1 s2 : Reg)
    (w : World) (latest : MetadataLatest) (json : JSON) (sA sB : Reg) :
  new_Metadata (data check) (regs (world c) registry) = (Ok metadata, s1) ->
  setMetadata metadata s1 = (Ok tt, s2) ->
  asLatest metadata (regs w registry) = (Ok latest, sA) ->
  types_toJSON (lookup latest) sA = (Ok json, sB) ->
  let w2 := with_call (Call_types_toJSON (lookup latest))
              (with_reg registry sB
                 (with_call (Call_asLatest metadata) (with_reg registry sA w))) in
  exists (c' : Collector) (new : list Test),
    decodeLatestMeta registry type version check c = (Ok tt, c') /\
    tests c' = (tests c ++ new)%list /\
    ((exists t, In t new /\ title t = "decodes latest types correctly")
     <-> 14 <= version) /\
    forall t, In t new -> title t = "decodes latest types correctly" ->
      skipped t = false /\
      exists error : Error,
        body t w
        = if matches_fixture json w version type sub_types then (Ok tt, w2)
          else if in_CI w then (Throw error, w2)
          else match write_errors w !! fixture_file w version type sub_types with
               | Some e => (Throw e, with_console (console_error_line error) w2)
               | None => (Ok tt, reconciled error json version type sub_types w2)
               end.
Proof.
  intros Hdec Hset Hlatest Htypes w2.
  eexists _, _. split; [exact (decodeLatestMeta_registers _ _ _ _ _ _ _ _ Hdec Hset)|].
  cbn [tests]. split; [reflexivity|].
  assert (Hbody : exists error : Error,
            decodes_latest_types_correctly registry type version metadata w
            = if matches_fixture json w version type sub_types then (Ok tt, w2)
              else if in_CI w then (Throw error, w2)
              else match write_errors w !! fixture_file w version type sub_types with
                   | Some e => (Throw e, with_console (console_error_line error) w2)
                   | None => (Ok tt, reconciled error json version type sub_types w2)
                   end).
  { unfold decodes_latest_types_correctly.
    rewrite (bind_ok _ _ _ _ _ (call_eq _ _ _ _ _ _ Hlatest)).
    erewrite bind_ok; cycle 1.
    { apply call_eq. rewrite regs_after_call. exact Htypes. }
    apply (compare_or_write_eq json version type sub_types w2). }
  destruct (Z.leb_spec 14 version) as [Hge|Hlt]; split.
  - split; [intros _; exact Hge|]. intros _. eexists. split; [right; left; reflexivity|reflexivity].
  - intros t [<-|[<-|[]]]; cbn [title skipped body]; [discriminate|]. intros _. now split.
  - split; [|lia]. intros (t & [<-|[]] & Ht). discriminate.
  - intros t [<-|[]]. discriminate.
Qed.

(** *** toLatest *)

(** C8.  [toLatest] registers one check.  When it runs and the three steps
    succeed, it has decoded [check.data], bound the result to the registry
    and taken [asLatest], in that order; [getUniqTypes] is then called, on
    that latest projection and with [withThrow] as given, exactly when the
    decoded version is below 14, and its failure is the check's failure. *)
Theorem uniqueness_scan_iff_pre_v14
    (registry : Registry) (version : Z) (check : Check) (withThrow : option bool)
    (c : Collector) (w : World) (metadata : Metadata) (latest : MetadataLatest)
    (s1 s2 s3 : Reg) :
  new_Metadata (data check) (regs w registry) = (Ok metadata, s1) ->
  setMetadata metadata s1 = (Ok tt, s2) ->
  asLatest metadata s2 = (Ok latest, s3) ->
  let strict := default true withThrow in
  let scan := Call_getUniqTypes registry latest strict in
  exists t : Test,
    toLatest registry version check withThrow c
    = (Ok tt, mkCollector (world c) (path c) (tests c ++ [t]) (suite_errors c)) /\
    title t = "converts v" +:+ number_toString version +:+ " to latest" /\
    skipped t = false /\
    exists after : list Event,
      calls (snd (body t w))
      = (calls w ++ [Call_new_Metadata registry (data check);
                     Call_setMetadata registry metadata;
                     Call_asLatest metadata] ++ after)%list /\
      (In scan after <-> Metadata_version metadata < 14) /\
      (forall ev, In ev after -> ev = scan) /\
      fst (body t w)
      = if (Metadata_version metadata <? 14)%Z
        then match fst (getUniqTypes latest strict s3) with
             | Ok _ => Ok tt
             | Throw e => Throw e
             end
        else Ok tt.
Proof.
  intros Hdec Hset Hlatest strict scan.
  eexists. split; [reflexivity|]. cbn [title skipped body].
  split; [reflexivity|]. split; [reflexivity|].
  unfold converts_to_latest.
  rewrite (bind_ok _ _ _ _ _ (call_eq _ _ _ _ _ _ Hdec)).
  erewrite bind_ok; cycle 1.
  { apply call_eq. rewrite regs_after_call. exact Hset. }
  erewrite bind_ok; cycle 1.
  { apply call_eq. rewrite regs_after_call. exact Hlatest. }
  destruct (Z.ltb_spec (Metadata_version metadata) 14) as [Hlt|Hge].
  - exists [scan].
    destruct (getUniqTypes latest strict s3) as [[names|e] s4] eqn:Hscan;
      [erewrite bind_ok | erewrite bind_throw];
      try (apply call_printing_eq; rewrite regs_after_call; exact Hscan);
      unfold ret; cbn [fst snd calls with_call with_reg with_lines];
      (split; [rewrite <- !app_assoc; reflexivity|]);
      (split; [split; [auto | intros _; now left]|]);
      (split; [intros ev [<-|[]]; reflexivity | reflexivity]).
  - exists []. unfold ret. cbn [fst snd calls with_call with_reg].
    split; [rewrite <- !app_assoc; reflexivity|].
    split; [split; [intros [] | lia]|].
    split; [intros ev [] | reflexivity].
Qed.

(** *** defaultValues *)

Lemma some_includes_false (location : string) (fails : list string) :
  some (fun f => includes location f) fails = false <-> not_exempt fails location.
Proof.
  rewrite <- not_true_iff_false, some_includes_iff. unfold not_exempt.
  split.
  - intros Hno f Hin Hocc. apply Hno. now exists f.
  - intros Hno (f & Hin & Hocc). now apply (Hno f).
Qed.

(** What the [catch] of lines 120-128 does with an error of the [try]. *)
Lemma default_value_check_caught
    (registry : Registry) (location : string) (item : StorageEntryMetadata)
    (fails : list string) (withThrow withFallbackCheck : bool)
    (w w1 : World) (error : Error) :
  decode_fallback registry item withFallbackCheck w = (Throw error, w1) ->
  default_value_check registry location item fails withThrow withFallbackCheck w
  = if withThrow && negb (some (fun f => includes location f) fails)
    then (Throw (new_Error (location +:+ ":: " +:+ message error)), w1)
    else (Ok tt, with_console (console_warn_line (location +:+ ":: " +:+ message error)) w1).
Proof.
  intros Htry. unfold default_value_check, try_catch. rewrite Htry.
  destruct (withThrow && negb (some (fun f => includes location f) fails)); reflexivity.
Qed.

(** How the check of one storage item ends when its [try] block threw. *)
Lemma default_value_check_classified
    (registry : Registry) (location : string) (item : StorageEntryMetadata)
    (fails : list string) (withThrow withFallbackCheck : bool)
    (w w1 : World) (error : Error) :
  decode_fallback registry item withFallbackCheck w = (Throw error, w1) ->
  let thrower := default_value_check registry location item fails withThrow withFallbackCheck in
  let msg := location +:+ ":: " +:+ message error in
  (is_ok (fst (expect_not_toThrow thrower w)) = false
   <-> withThrow = true /\ not_exempt fails location) /\
  (withThrow = true /\ not_exempt fails location ->
     thrower w = (Throw (new_Error msg), w1) /\
     snd (expect_not_toThrow thrower w) = w1) /\
  (~ (withThrow = true /\ not_exempt fails location) ->
     expect_not_toThrow thrower w = (Ok tt, with_console (console_warn_line msg) w1)).
Proof.
  intros Htry thrower msg. subst thrower.
  assert (Hcond : withThrow && negb (some (fun f => includes location f) fails) = true
                  <-> withThrow = true /\ not_exempt fails location).
  { rewrite andb_true_iff, negb_true_iff. now rewrite some_includes_false. }
  unfold expect_not_toThrow, try_catch, bind.
  rewrite (default_value_check_caught _ _ _ _ _ _ _ _ _ Htry).
  destruct (withThrow && negb (some (fun f => includes location f) fails)).
  - assert (Hyes : withThrow = true /\ not_exempt fails location) by now apply Hcond.
    split; [split; [intros _; exact Hyes | reflexivity]|].
    split; [intros _; split; reflexivity | intros Hn; contradiction].
  - assert (Hno : ~ (withThrow = true /\ not_exempt fails location)).
    { intros Hc. apply Hcond in Hc. discriminate. }
    split; [split; [discriminate | intros Hc; contradiction]|].
    split; [intros Hc; contradiction | reflexivity].
Qed.

(** How the check of one storage item ends when its [try] block returned. *)
Lemma default_value_check_returned
    (registry : Registry) (location : string) (item : StorageEntryMetadata)
    (fails : list string) (withThrow withFallbackCheck : bool) (w w1 : World) :
  decode_fallback registry item withFallbackCheck w = (Ok tt, w1) ->
  expect_not_toThrow
    (default_value_check registry location item fails withThrow withFallbackCheck) w
  = (Ok tt, w1).
Proof.
  intros Htry. unfold expect_not_toThrow, default_value_check, try_catch, bind.
  now rewrite Htry.
Qed.

(** C10.  When [check.fails] contains the empty string, an error raised
    in a storage item's [try] block is never fatal, whatever [withThrow]
    is: the message is written with [console.warn] and the check passes. *)
Theorem empty_pattern_tolerates_every_error
    (registry : Registry) (check : Check) (location : string)
    (item : StorageEntryMetadata) (withThrow withFallbackCheck : bool)
    (w w1 : World) (error : Error) :
  In EmptyString (default [] (fails check)) ->
  decode_fallback registry item withFallbackCheck w = (Throw error, w1) ->
  expect_not_toThrow
    (default_value_check registry location item (default [] (fails check))
       withThrow withFallbackCheck) w
  = (Ok tt, with_console (console_warn_line (location +:+ ":: " +:+ message error)) w1).
Proof.
  intros Hin Htry. unfold expect_not_toThrow, try_catch, bind.
  rewrite (default_value_check_caught _ _ _ _ _ _ _ _ _ Htry).
  assert (Hsome : some (fun f => includes location f) (default [] (fails check)) = true).
  { apply some_includes_iff. exists EmptyString. split; [exact Hin|].
    apply includes_iff, includes_empty. }
  rewrite Hsome, andb_false_r. reflexivity.
Qed.

(** Lines 113-119 once the instance has been created. *)
Lemma decode_fallback_round_trip
    (registry : Registry) (item : StorageEntryMetadata) (instance : Codec)
    (w0 w : World) (encoded original : list Byte.byte) (sA sB : Reg) :
  create_instance registry item w0 = (Ok instance, w) ->
  toU8a instance None (regs w registry) = (Ok encoded, sA) ->
  toU8a (fallback item) (Some true) sA = (Ok original, sB) ->
  let w2 := with_call (Call_toU8a (fallback item) (Some true))
              (with_reg registry sB
                 (with_call (Call_toU8a instance None) (with_reg registry sA w))) in
  let delta := Z.of_nat (List.length original) - Z.of_nat (List.length encoded) in
  (encoded = original -> decode_fallback registry item true w0 = (Ok tt, w2)) /\
  (encoded <> original ->
     decode_fallback registry item true w0
     = (Throw (new_Error ("Fallback does not match (" +:+ number_toString delta
                            +:+ " bytes missing): " +:+ u8aToHex encoded
                            +:+ " !== " +:+ u8aToHex original)), w2)) /\
  decode_fallback registry item false w0 = (Ok tt, w).
Proof.
  intros Hinst Henc Horig w2 delta.
  assert (Hcheck : decode_fallback registry item true w0
                   = fallback_check registry item instance w).
  { unfold decode_fallback. now rewrite (bind_ok _ _ _ _ _ Hinst). }
  assert (Hrun : fallback_check registry item instance w
            = (if negb (String.eqb (u8aToHex encoded) (u8aToHex original))
               then throw (new_Error ("Fallback does not match (" +:+ number_toString delta
                            +:+ " bytes missing): " +:+ u8aToHex encoded
                            +:+ " !== " +:+ u8aToHex original))
               else ret tt) w2).
  { unfold fallback_check.
    rewrite (bind_ok _ _ _ _ _ (call_eq _ _ _ _ _ _ Henc)).
    erewrite bind_ok; cycle 1.
    { apply call_eq. rewrite regs_after_call. exact Horig. }
    cbv zeta. rewrite !hex_byte_count. reflexivity. }
  rewrite Hcheck, Hrun. repeat split.
  - intros Heq. apply u8aToHex_eqb in Heq. now rewrite Heq.
  - intros Hne. destruct (String.eqb (u8aToHex encoded) (u8aToHex original)) eqn:E;
      [apply u8aToHex_eqb in E; contradiction | reflexivity].
  - unfold decode_fallback. now rewrite (bind_ok _ _ _ _ _ Hinst).
Qed.

(** *** The checks [defaultValues] registers *)

Lemma unwrap_items_app (l1 l2 : list (PalletMetadata * StorageEntryMetadata)) :
  forall s : Reg,
    unwrap_items (l1 ++ l2)%list s
    = match snd (fst (unwrap_items l1 s)) with
      | Ok _ =>
          let walk2 := unwrap_items l2 (snd (unwrap_items l1 s)) in
          ((fst (fst (unwrap_items l1 s)) ++ fst (fst walk2))%list,
           snd (fst walk2), snd walk2)
      | Throw _ => unwrap_items l1 s
      end.
Proof.
  induction l1 as [|pi l1 IH]; intros s.
  - cbn. now destruct (unwrap_items l2 s) as [[? ?] ?].
  - cbn [app unwrap_items].
    destruct (unwrapStorageType _ _ s) as [[inner|e] s']; [|reflexivity].
    rewrite IH. cbv zeta. cbn [fst snd].
    destruct (unwrap_items l1 s') as [[reached [[]|e]] s1]; reflexivity.
Qed.

(** The items reached are the first of the list, in order. *)
Lemma unwrap_items_prefix (its : list (PalletMetadata * StorageEntryMetadata)) :
  forall s : Reg,
    exists rest, its = (map fst (fst (fst (unwrap_items its s))) ++ rest)%list.
Proof.
  induction its as [|pi its IH]; intros s.
  - now exists [].
  - cbn [unwrap_items].
    destruct (unwrapStorageType _ _ s) as [[inner|e] s'].
    + destruct (IH s') as [rest Hrest]. exists rest. cbn. now rewrite <- Hrest.
    + now exists (pi :: its).
Qed.

(** A walk that ended well reached every item. *)
Lemma unwrap_items_complete (its : list (PalletMetadata * StorageEntryMetadata)) :
  forall s : Reg,
    is_ok (snd (fst (unwrap_items its s))) = true ->
    map fst (fst (fst (unwrap_items its s))) = its.
Proof.
  induction its as [|pi its IH]; intros s; [reflexivity|].
  cbn [unwrap_items].
  destruct (unwrapStorageType _ _ s) as [[inner|e] s']; [|discriminate].
  cbn. intros Hok. now rewrite (IH s' Hok).
Qed.

Lemma Forall2_map_self {A B} (P : A -> B -> Prop) (f : A -> B) (l : list A) :
  (forall x, P x (f x)) -> Forall2 P l (map f l).
Proof. intros Hf. induction l; cbn; constructor; auto. Qed.

Section Registration.
Variables (registry : Registry) (fails : list string) (withThrow withFallbackCheck : bool).

Lemma each_item_ok (p : PalletMetadata) (item : StorageEntryMetadata)
    (c0 : Collector) (inner : string) (s : Reg) :
  unwrapStorageType (item_type item) (isOptional (modifier item))
    (regs (world c0) registry) = (Ok inner, s) ->
  exists c1,
    each_item registry fails withThrow withFallbackCheck
      (stringCamelCase (pallet_name p)) item c0 = (Ok tt, c1) /\
    extends c0 c1
      [storage_check registry fails withThrow withFallbackCheck (path c0) (p, item, inner)] /\
    regs (world c1) registry = s.
Proof.
  intros Hinner. unfold each_item.
  rewrite (bind_ok _ _ _ _ _ (run_call_eq _ _ _ _ _ _ Hinner)).
  eexists. split; [reflexivity|]. split; [repeat split|].
  cbn [world]. apply regs_after_call.
Qed.

Lemma each_item_throw (sectionName : string) (item : StorageEntryMetadata)
    (c0 : Collector) (e : Error) (s : Reg) :
  unwrapStorageType (item_type item) (isOptional (modifier item))
    (regs (world c0) registry) = (Throw e, s) ->
  exists c1,
    each_item registry fails withThrow withFallbackCheck sectionName item c0 = (Throw e, c1) /\
    extends c0 c1 [] /\
    regs (world c1) registry = s.
Proof.
  intros Hinner. unfold each_item.
  rewrite (bind_throw _ _ _ _ _ (run_call_eq _ _ _ _ _ _ Hinner)).
  eexists. split; [reflexivity|]. split.
  - repeat split. cbn [tests]. now rewrite app_nil_r.
  - cbn [world]. apply regs_after_call.
Qed.

Lemma items_loop (p : PalletMetadata) (its : list StorageEntryMetadata) :
  forall c0 : Collector,
    let walk := unwrap_items (map (pair p) its) (regs (world c0) registry) in
    exists c1,
      forEach its (each_item registry fails withThrow withFallbackCheck
                     (stringCamelCase (pallet_name p))) c0
      = (snd (fst walk), c1) /\
      extends c0 c1
        (map (storage_check registry fails withThrow withFallbackCheck (path c0))
           (fst (fst walk))) /\
      regs (world c1) registry = snd walk.
Proof.
  induction its as [|item its IH]; intros c0; cbv zeta.
  - exists c0. split; [reflexivity|]. split; [|reflexivity].
    repeat split. cbn. now rewrite app_nil_r.
  - cbn [map unwrap_items forEach fst snd].
    destruct (unwrapStorageType (item_type item) (isOptional (modifier item))
                (regs (world c0) registry)) as [[inner|e] s] eqn:Hinner.
    + destruct (each_item_ok p item c0 inner s Hinner) as (cA & Hstep & (Hp & He & Ht) & Hreg).
      rewrite (bind_ok _ _ _ _ _ Hstep).
      destruct (IH cA) as (c1 & Hrun & (Hp1 & He1 & Ht1) & Hreg1).
      rewrite Hreg, Hp in *. cbn [fst snd].
      exists c1. split; [exact Hrun|]. split; [|exact Hreg1].
      repeat split; [congruence | congruence |].
      rewrite Ht1, Ht, <- app_assoc. reflexivity.
    + destruct (each_item_throw (stringCamelCase (pallet_name p)) item c0 e s Hinner)
        as (cA & Hstep & Hext & Hreg).
      rewrite (bind_throw _ _ _ _ _ Hstep). cbn [fst snd map].
      exists cA. split; [reflexivity|]. split; [exact Hext | exact Hreg].
Qed.

Lemma pallets_loop (ps : list PalletMetadata) :
  forall c0 : Collector,
    let walk := unwrap_items (storage_items ps) (regs (world c0) registry) in
    exists c1,
      forEach (List.filter (fun pallet => isSome (storage pallet)) ps)
        (each_pallet registry fails withThrow withFallbackCheck) c0
      = (snd (fst walk), c1) /\
      extends c0 c1
        (map (storage_check registry fails withThrow withFallbackCheck (path c0))
           (fst (fst walk))) /\
      regs (world c1) registry = snd walk.
Proof.
  induction ps as [|p ps IH]; intros c0; cbv zeta.
  - exists c0. split; [reflexivity|]. split; [|reflexivity].
    repeat split. cbn. now rewrite app_nil_r.
  - cbn [List.filter storage_items flat_map].
    destruct (storage p) as [st|] eqn:Hst; cbn [isSome].
    + cbn [forEach]. unfold each_pallet at 1. rewrite Hst.
      fold (storage_items ps). rewrite unwrap_items_app.
      destruct (items_loop p (items st) c0) as (cA & Hrun & (Hp & He & Ht) & Hreg).
      cbv zeta in Hrun, Ht, Hreg.
      destruct (snd (fst (unwrap_items (map (pair p) (items st)) (regs (world c0) registry))))
        as [[]|e] eqn:Hend.
      * rewrite (bind_ok _ _ _ _ _ Hrun).
        destruct (IH cA) as (c1 & Hrun1 & (Hp1 & He1 & Ht1) & Hreg1).
        rewrite Hreg, Hp in *. cbn [fst snd].
        exists c1. split; [exact Hrun1|]. split; [|exact Hreg1].
        repeat split; [congruence | congruence |].
        rewrite Ht1, Ht, map_app, <- app_assoc. reflexivity.
      * rewrite (bind_throw _ _ _ _ _ Hrun).
        exists cA. rewrite Hend. split; [reflexivity|]. split; [|exact Hreg].
        repeat split; assumption.
    + apply IH.
Qed.

End Registration.

(** Once [check.data] has decoded and its latest projection has been
    taken, [defaultValues] returns having registered, under 'storage
    with default values', one check for each storage item the walk
    reached; the callback of [describe] threw if the walk did. *)
Lemma defaultValues_checks
    (registry : Registry) (check : Check) (withThrow withFallbackCheck : option bool)
    (c : Collector) (metadata : Metadata) (latest : MetadataLatest) (s1 s2 : Reg) :
  new_Metadata (data check) (regs (world c) registry) = (Ok metadata, s1) ->
  asLatest metadata s1 = (Ok latest, s2) ->
  let suite := (path c ++ ["storage with default values"])%list in
  let walk := unwrap_items (storage_items (pallets latest)) s2 in
  exists c' : Collector,
    defaultValues registry check withThrow withFallbackCheck c = (Ok tt, c') /\
    path c' = path c /\
    tests c'
    = (tests c ++ map (storage_check registry (default [] (fails check))
                         (default true withThrow) (default false withFallbackCheck) suite)
                    (fst (fst walk)))%list /\
    suite_errors c'
    = match snd (fst walk) with
      | Ok _ => suite_errors c
      | Throw e => (suite_errors c ++ [(suite, e)])%list
      end.
Proof.
  intros Hdec Hlatest suite walk.
  unfold defaultValues, describe.
  set (c0 := mkCollector (world c) suite (tests c) (suite_errors c)).
  assert (R1 := run_call_eq registry (Call_new_Metadata registry (data check)) _ c0 _ _ Hdec).
  rewrite (bind_ok _ _ _ _ _ R1).
  erewrite bind_ok; cycle 1.
  { apply run_call_eq. cbn [world]. rewrite regs_after_call. exact Hlatest. }
  match goal with |- context [forEach _ _ ?c1] => set (cA := c1) end.
  destruct (pallets_loop registry (default [] (fails check)) (default true withThrow)
              (default false withFallbackCheck) (pallets latest) cA)
    as (c2 & Hrun & (Hp & He & Ht) & _).
  assert (Hreg : regs (world cA) registry = s2) by (cbn [world cA]; apply regs_after_call).
  cbv zeta in Hrun, Ht. rewrite Hreg in Hrun, Ht. fold walk in Hrun, Ht.
  rewrite Hrun. eexists. split; [reflexivity|]. cbn [path tests suite_errors].
  split; [reflexivity|]. split; [exact Ht|].
  rewrite He. cbn [suite_errors cA]. now destruct (snd (fst walk)).
Qed.

(** The callback of [describe] threw exactly when [suite_errors] grew. *)
Lemma suite_errors_unchanged
    (errs : list (list string * Error)) (suite : list string) (r : Res unit) :
  match r with
  | Ok _ => errs
  | Throw e => (errs ++ [(suite, e)])%list
  end = errs ->
  is_ok r = true.
Proof.
  destruct r as [[]|e]; [reflexivity|]. intros Herr. exfalso.
  apply (f_equal (@List.length _)) in Herr. rewrite length_app in Herr.
  cbn in Herr. lia.
Qed.

(** C2.  [defaultValues] registers one check per storage item reached,
    titled with the item's location and running the function of lines
    105-129 under [expect(...).not.toThrow()].  When the [try] block of
    such a check raises an error (while decoding the fallback or in the
    round-trip comparison), the check fails if and only if [withThrow] is
    true and no pattern of [check.fails] occurs in the location: the
    function then throws [location:: message].  In every other case that
    message is written with [console.warn] and the check passes. *)
Theorem default_error_fatal_iff_strict_and_not_exempt
    (registry : Registry) (check : Check) (withThrow withFallbackCheck : option bool)
    (c : Collector) (metadata : Metadata) (latest : MetadataLatest) (s1 s2 : Reg) :
  new_Metadata (data check) (regs (world c) registry) = (Ok metadata, s1) ->
  asLatest metadata s1 = (Ok latest, s2) ->
  let strict := default true withThrow in
  let compare := default false withFallbackCheck in
  let fails := default [] (fails check) in
  let c' := snd (defaultValues registry check withThrow withFallbackCheck c) in
  let reached := fst (fst (unwrap_items (storage_items (pallets latest)) s2)) in
  exists new : list Test,
    tests c' = (tests c ++ new)%list /\
    (suite_errors c' = suite_errors c ->
     map fst reached = storage_items (pallets latest)) /\
    Forall2
      (fun v t =>
         let item := snd (fst v) in
         let location := item_location (fst (fst v)) item (snd v) in
         let thrower := default_value_check registry location item fails strict compare in
         title t = location /\
         skipped t = false /\
         body t = expect_not_toThrow thrower /\
         forall (w w1 : World) (error : Error),
           decode_fallback registry item compare w = (Throw error, w1) ->
           let msg := location +:+ ":: " +:+ message error in
           (is_ok (fst (body t w)) = false
            <-> strict = true /\ not_exempt fails location) /\
           (strict = true /\ not_exempt fails location ->
              thrower w = (Throw (new_Error msg), w1) /\ snd (body t w) = w1) /\
           (~ (strict = true /\ not_exempt fails location) ->
              body t w = (Ok tt, with_console (console_warn_line msg) w1)))
      reached new.
Proof.
  intros Hdec Hlatest strict compare fails0 c' reached. subst c'.
  destruct (defaultValues_checks registry check withThrow withFallbackCheck c
              metadata latest s1 s2 Hdec Hlatest) as (c' & Hrun & _ & Htests & Herrs).
  rewrite Hrun. cbn [snd]. eexists. split; [exact Htests|]. split.
  - intros Hsame. apply unwrap_items_complete.
    rewrite Hsame in Herrs. symmetry in Herrs.
    exact (suite_errors_unchanged _ _ _ Herrs).
  - apply Forall2_map_self. intros [[p item] inner]. cbn [fst snd].
    split; [reflexivity|]. split; [reflexivity|]. split; [reflexivity|].
    intros w w1 error Htry.
    exact (default_value_check_classified registry (item_location p item inner) item
             fails0 strict compare w w1 error Htry).
Qed.

(** C4.  For every storage item reached, the check [defaultValues]
    registers does this once the instance has been created.  With
    [withFallbackCheck] on, the instance is encoded with [toU8a()] (no
    [isBare] flag: the complete encoding) and compared, as hex, with the
    bytes of [fallback.toU8a(true)].  Equal bytes let the check pass.
    Different bytes make the [try] block throw an error whose message
    gives the number of fallback bytes minus the number of re-encoded
    bytes, followed by both hex strings; that error is then fatal or
    warned about like any other.  With the flag off nothing is
    re-encoded and the check passes. *)
Theorem fallback_round_trip_compared
    (registry : Registry) (check : Check) (withThrow withFallbackCheck : option bool)
    (c : Collector) (metadata : Metadata) (latest : MetadataLatest) (s1 s2 : Reg) :
  new_Metadata (data check) (regs (world c) registry) = (Ok metadata, s1) ->
  asLatest metadata s1 = (Ok latest, s2) ->
  let strict := default true withThrow in
  let compare := default false withFallbackCheck in
  let fails := default [] (fails check) in
  let c' := snd (defaultValues registry check withThrow withFallbackCheck c) in
  let reached := fst (fst (unwrap_items (storage_items (pallets latest)) s2)) in
  exists new : list Test,
    tests c' = (tests c ++ new)%list /\
    (suite_errors c' = suite_errors c ->
     map fst reached = storage_items (pallets latest)) /\
    Forall2
      (fun v t =>
         let item := snd (fst v) in
         title t = item_location (fst (fst v)) item (snd v) /\
         forall (w0 w : World) (instance : Codec) (encoded original : list Byte.byte)
                (sA sB : Reg),
           create_instance registry item w0 = (Ok instance, w) ->
           toU8a instance None (regs w registry) = (Ok encoded, sA) ->
           toU8a (fallback item) (Some true) sA = (Ok original, sB) ->
           let w2 := with_call (Call_toU8a (fallback item) (Some true))
                       (with_reg registry sB
                          (with_call (Call_toU8a instance None) (with_reg registry sA w))) in
           let delta := Z.of_nat (List.length original) - Z.of_nat (List.length encoded) in
           let msg := "Fallback does not match (" +:+ number_toString delta
                        +:+ " bytes missing): " +:+ u8aToHex encoded
                        +:+ " !== " +:+ u8aToHex original in
           (compare = false -> body t w0 = (Ok tt, w)) /\
           (compare = true -> encoded = original -> body t w0 = (Ok tt, w2)) /\
           (compare = true -> encoded <> original ->
              decode_fallback registry item true w0 = (Throw (new_Error msg), w2) /\
              (strict = true /\ not_exempt fails (title t) ->
                 is_ok (fst (body t w0)) = false /\ snd (body t w0) = w2) /\
              (~ (strict = true /\ not_exempt fails (title t)) ->
                 body t w0
                 = (Ok tt, with_console (console_warn_line (title t +:+ ":: " +:+ msg)) w2))))
      reached new.
Proof.
  intros Hdec Hlatest strict compare fails0 c' reached. subst c' strict compare fails0.
  destruct (defaultValues_checks registry check withThrow withFallbackCheck c
              metadata latest s1 s2 Hdec Hlatest) as (c' & Hrun & _ & Htests & Herrs).
  rewrite Hrun. cbn [snd]. eexists. split; [exact Htests|]. split.
  - intros Hsame. apply unwrap_items_complete.
    rewrite Hsame in Herrs. symmetry in Herrs.
    exact (suite_errors_unchanged _ _ _ Herrs).
  - apply Forall2_map_self. intros [[p item] inner]. cbn [fst snd].
    split; [reflexivity|].
    intros w0 w instance encoded original sA sB Hinst Henc Horig. cbv zeta.
    pose proof (decode_fallback_round_trip registry item instance w0 w encoded original
                  sA sB Hinst Henc Horig) as Hrt.
    cbv zeta in Hrt. destruct Hrt as (Hsame & Hdiff & Hoff).
    unfold storage_check, item_check. cbn [body title fst snd].
    fold (item_location p item inner).
    split; [|split].
    + intros Hflag. apply default_value_check_returned. rewrite Hflag. exact Hoff.
    + intros Hflag Heq. apply default_value_check_returned. rewrite Hflag. now apply Hsame.
    + intros Hflag Hne. specialize (Hdiff Hne). split; [exact Hdiff|].
      assert (Htry : decode_fallback registry item (default false withFallbackCheck) w0
                     = decode_fallback registry item true w0) by now rewrite Hflag.
      rewrite Hdiff in Htry.
      pose proof (default_value_check_classified registry (item_location p item inner) item
                    (default [] (fails check)) (default true withThrow)
                    (default false withFallbackCheck) w0 _ _ Htry) as Hcl.
      cbv zeta in Hcl. destruct Hcl as (Hiff & Hfatal & Hwarn).
      split.
      * intros Hc. split; [now apply Hiff | now apply Hfatal].
      * exact Hwarn.
Qed.

(** X12.  Once [check.data] has decoded, [defaultValues] returns having
    registered, under 'storage with default values' and in declaration
    order, the check of each storage item of the latest projection up to
    the first one whose [unwrapStorageType] throws; the type name in a
    check's title is the one that call returned, each call being made
    in the registry state the one before left.  If the callback of
    [describe] ran to its end there is one check for every storage
    item. *)
Lemma defaultValues_registers
    (registry : Registry) (check : Check) (withThrow withFallbackCheck : option bool)
    (c : Collector) (metadata : Metadata) (latest : MetadataLatest) (s1 s2 : Reg) :
  new_Metadata (data check) (regs (world c) registry) = (Ok metadata, s1) ->
  asLatest metadata s1 = (Ok latest, s2) ->
  let suite := (path c ++ ["storage with default values"])%list in
  let walk := unwrap_items (storage_items (pallets latest)) s2 in
  let reached := fst (fst walk) in
  exists c' : Collector,
    defaultValues registry check withThrow withFallbackCheck c = (Ok tt, c') /\
    path c' = path c /\
    tests c'
    = (tests c ++ map (storage_check registry (default [] (fails check))
                         (default true withThrow) (default false withFallbackCheck) suite)
                    reached)%list /\
    (exists rest, storage_items (pallets latest) = (map fst reached ++ rest)%list) /\
    (suite_errors c' = suite_errors c <-> is_ok (snd (fst walk)) = true) /\
    (suite_errors c' = suite_errors c -> map fst reached = storage_items (pallets latest)).
Proof.
  intros Hdec Hlatest suite walk reached.
  destruct (defaultValues_checks registry check withThrow withFallbackCheck c
              metadata latest s1 s2 Hdec Hlatest) as (c' & Hrun & Hpath & Htests & Herrs).
  fold suite walk in Htests, Herrs.
  assert (Hiff : suite_errors c' = suite_errors c <-> is_ok (snd (fst walk)) = true).
  { split.
    - intros Hsame. rewrite Hsame in Herrs. symmetry in Herrs.
      exact (suite_errors_unchanged _ _ _ Herrs).
    - intros Hok. rewrite Herrs. destruct (snd (fst walk)); [reflexivity | discriminate]. }
  exists c'. split; [exact Hrun|]. split; [exact Hpath|]. split; [exact Htests|].
  split; [apply unwrap_items_prefix|]. split; [exact Hiff|].
  intros Hsame. apply unwrap_items_complete. now apply Hiff.
Qed.

(** The function under [expect] at lines 154-156 returns exactly when
    taking the calls-only projection, encoding it and decoding the result
    all return. *)
Lemma calls_only_check_passes_iff
    (registry : Registry) (metadata : Metadata) (w : World) :
  let assertion :=
    expect_not_toThrow
      (let* callsOnly := call registry (Call_asCallsOnly metadata) (asCallsOnly metadata) in
       let* hex := call registry (Call_Metadata_toHex callsOnly) (Metadata_toHex callsOnly) in
       call registry (Call_new_Metadata registry hex) (new_Metadata hex)) in
  fst (assertion w) = Ok tt
  <-> exists callsOnly sA hex sB decoded sC,
        asCallsOnly metadata (regs w registry) = (Ok callsOnly, sA) /\
        Metadata_toHex callsOnly sA = (Ok hex, sB) /\
        new_Metadata hex sB = (Ok decoded, sC).
Proof.
  intros assertion. subst assertion.
  unfold expect_not_toThrow, try_catch.
  destruct (asCallsOnly metadata (regs w registry)) as [[callsOnly|e] sA] eqn:H1.
  2:{ rewrite (bind_throw _ _ _ _ _ (bind_throw _ _ _ _ _ (call_eq _ _ _ _ _ _ H1))).
      split; [discriminate|]. intros (? & ? & ? & ? & ? & ? & [=] & _). }
  assert (R1 := call_eq registry (Call_asCallsOnly metadata) _ _ _ _ H1).
  destruct (Metadata_toHex callsOnly sA) as [[hex|e] sB] eqn:H2.
  2:{ erewrite bind_throw; cycle 1.
      { rewrite (bind_ok _ _ _ _ _ R1). apply bind_throw, call_eq.
        rewrite regs_after_call. exact H2. }
      split; [discriminate|].
      intros (? & ? & ? & ? & ? & ? & [= <- <-] & E & _). congruence. }
  assert (R2 : call registry (Call_Metadata_toHex callsOnly) (Metadata_toHex callsOnly)
                 (with_call (Call_asCallsOnly metadata) (with_reg registry sA w))
               = (Ok hex, with_call (Call_Metadata_toHex callsOnly)
                            (with_reg registry sB
                               (with_call (Call_asCallsOnly metadata)
                                  (with_reg registry sA w))))).
  { apply call_eq. rewrite regs_after_call. exact H2. }
  destruct (new_Metadata hex sB) as [[decoded|e] sC] eqn:H3.
  - erewrite bind_ok; cycle 1.
    { rewrite (bind_ok _ _ _ _ _ R1), (bind_ok _ _ _ _ _ R2). apply call_eq.
      rewrite regs_after_call. exact H3. }
    split; [|reflexivity]. intros _. now exists callsOnly, sA, hex, sB, decoded, sC.
  - erewrite bind_throw; cycle 1.
    { rewrite (bind_ok _ _ _ _ _ R1), (bind_ok _ _ _ _ _ R2). apply call_eq.
      rewrite regs_after_call. exact H3. }
    split; [discriminate|].
    intros (? & ? & ? & ? & ? & ? & [= <- <-] & E2 & E3).
    rewrite H2 in E2. injection E2 as <- <-. congruence.
Qed.

(** X9.  Once [check.data] has decoded, [serialize] registers three
    checks.  The second, 'can construct from a re-serialized form', is
    skipped.  The third, 'can construct from asCallsOnly.toHex()', is
    not, and it passes exactly when taking the calls-only projection of
    the decoded metadata, encoding it and decoding the result all
    return. *)
Theorem serialize_checks_calls_only_projection
    (registry : Registry) (check : Check) (c : Collector)
    (metadata : Metadata) (s : Reg) :
  new_Metadata (data check) (regs (world c) registry) = (Ok metadata, s) ->
  exists (t t2 t3 : Test) (c' : Collector),
    serialize registry check c = (Ok tt, c') /\
    tests c' = (tests c ++ [t; t2; t3])%list /\
    title t2 = "can construct from a re-serialized form" /\
    skipped t2 = true /\
    title t3 = "can construct from asCallsOnly.toHex()" /\
    skipped t3 = false /\
    forall w : World,
      fst (body t3 w) = Ok tt
      <-> exists callsOnly sA hex sB decoded sC,
            asCallsOnly metadata (regs w registry) = (Ok callsOnly, sA) /\
            Metadata_toHex callsOnly sA = (Ok hex, sB) /\
            new_Metadata hex sB = (Ok decoded, sC).
Proof.
  intros Hdec. unfold serialize.
  rewrite (bind_ok _ _ _ _ _ (run_call_eq _ _ _ _ _ _ Hdec)).
  eexists _, _, _, _. split; [reflexivity|]. cbn [tests].
  split; [rewrite <- !app_assoc; reflexivity|].
  do 4 (split; [reflexivity|]).
  intros w. cbn [body]. apply calls_only_check_passes_iff.
Qed.

End Harness.

(** * Further properties of the helpers *)

(** ** The [delete] of line 42 *)

Lemma assoc_remove_absent (key : string) (props : list (string * JSON)) :
  assoc key props = None -> assoc_remove key props = props.
Proof.
  induction props as [|[k x] rest IH]; simpl; [reflexivity|].
  destruct (String.eqb k key); simpl; [discriminate|].
  intros Hrest. now rewrite (IH Hrest).
Qed.

Lemma assoc_remove_twice (key : string) (props : list (string * JSON)) :
  assoc_remove key (assoc_remove key props) = assoc_remove key props.
Proof. apply assoc_remove_absent, assoc_remove_eq. Qed.

Lemma assoc_set_twice (key : string) (v v' : JSON) (props : list (string * JSON)) :
  assoc_set key v (assoc_set key v' props) = assoc_set key v props.
Proof.
  induction props as [|[k x] rest IH]; simpl; [reflexivity|].
  destruct (String.eqb k key) eqn:E; simpl; rewrite E; [reflexivity | now rewrite IH].
Qed.

(** X1.  The [delete] of line 42 returns exactly when the tree has a value
    other than [null] at [metadata.<v>]; in every other case it throws a
    TypeError. *)
Theorem delete_lookup_ok_iff (json : JSON) (v : string) :
  is_ok (delete_lookup json v) = true
  <-> exists o, lookup_path json ["metadata"; v] = Some o /\ o <> JNull.
Proof.
  unfold delete_lookup, get_prop. cbn [lookup_path].
  destruct json as [| | | | |props]; cbn [is_ok];
    try (split; [discriminate | intros (o & [=] & _)]).
  destruct (assoc "metadata" props) as [md|];
    [|split; [discriminate | intros (o & [=] & _)]].
  destruct md as [| | | | |mdprops]; cbn [is_ok];
    try (split; [discriminate | intros (o & [=] & _)]).
  destruct (assoc v mdprops) as [o|];
    [|split; [discriminate | intros (o & [=] & _)]].
  destruct o as [| | | | |oprops]; cbn [is_ok];
    try (split; [intros _; eexists; split; [reflexivity | discriminate] | reflexivity]).
  split; [discriminate | intros (o & [= <-] & Ho); congruence].
Qed.

(** X2.  A tree that has no [lookup] under [metadata.<v>] (every version
    before 14) comes out of the [delete] as it went in. *)
Theorem delete_lookup_without_lookup (json json' : JSON) (v : string) :
  delete_lookup json v = Ok json' ->
  lookup_path json ["metadata"; v; "lookup"] = None ->
  json' = json.
Proof.
  unfold delete_lookup, get_prop. cbn [lookup_path].
  destruct json as [| | | | |props]; try discriminate.
  destruct (assoc "metadata" props) as [md|] eqn:Emd; [|discriminate].
  destruct md as [| | | | |mdprops]; try discriminate.
  destruct (assoc v mdprops) as [o|] eqn:Eo; [|discriminate].
  destruct o as [| | | | |oprops]; try discriminate; intros [= <-]; try reflexivity.
  intros Hno. cbn [with_prop].
  destruct (assoc "lookup" oprops) eqn:El; [discriminate|].
  now rewrite (assoc_remove_absent _ _ El), (assoc_set_same _ _ _ Eo),
    (assoc_set_same _ _ _ Emd).
Qed.

(** X3.  Deleting twice is deleting once. *)
Theorem delete_lookup_idempotent (json json' : JSON) (v : string) :
  delete_lookup json v = Ok json' -> delete_lookup json' v = Ok json'.
Proof.
  unfold delete_lookup at 1. unfold get_prop.
  destruct json as [| | | | |props] eqn:Ej; try discriminate.
  destruct (assoc "metadata" props) as [md|] eqn:Emd; [|discriminate].
  destruct md as [| | | | |mdprops]; try discriminate.
  destruct (assoc v mdprops) as [o|] eqn:Eo; [|discriminate].
  destruct o as [| | | | |oprops]; try discriminate; intros [= <-];
    try (unfold delete_lookup, get_prop; now rewrite Emd, Eo).
  unfold delete_lookup, get_prop. cbn [with_prop].
  rewrite (assoc_set_eq _ _ _ _ Emd), (assoc_set_eq _ _ _ _ Eo).
  cbn [with_prop]. now rewrite assoc_remove_twice, !assoc_set_twice.
Qed.

(** * What the helpers leave alone *)

Section Footprint.
Context {T : CodecTypes} {K : Collaborators}.

Section Touches.
Variables (r : Registry) (l : bool) (f : string -> Prop).

Lemma touches_refl (w : World) : touches r l f w w.
Proof.
  do 4 (split; [reflexivity || auto|]).
  split; [exists []; now rewrite app_nil_r|].
  split; [exists []; split; [now rewrite app_nil_r | reflexivity]|].
  split; [auto | reflexivity].
Qed.

Lemma touches_trans (w1 w2 w3 : World) :
  touches r l f w1 w2 -> touches r l f w2 w3 -> touches r l f w1 w3.
Proof.
  intros (Hn & Hc & He & Hr & (m1 & Hm1) & (l1 & Hl1 & Hq1) & Hf & Hw)
         (Hn' & Hc' & He' & Hr' & (m2 & Hm2) & (l2 & Hl2 & Hq2) & Hf' & Hw').
  do 3 (split; [congruence|]).
  split; [intros i Hi; rewrite (Hr' i Hi); now apply Hr|].
  split; [exists (m1 ++ m2)%list; rewrite Hm2, Hm1; now rewrite <- app_assoc|].
  split.
  - exists (l1 ++ l2)%list. split; [rewrite Hl2, Hl1; now rewrite <- app_assoc|].
    intros Hl. now rewrite (Hq1 Hl), (Hq2 Hl).
  - split; [|congruence]. intros p Hp. rewrite (Hf' p Hp). now apply Hf.
Qed.

Lemma touches_call (ev : Event) (s : Reg) (w : World) :
  touches r l f w (with_call ev (with_reg r s w)).
Proof.
  do 3 (split; [reflexivity|]).
  split; [intros i Hi; simpl; apply Nat.eqb_neq in Hi; now rewrite Hi|].
  split; [now exists [ev]|].
  split; [exists []; split; [simpl; now rewrite app_nil_r | reflexivity]|].
  split; [auto | reflexivity].
Qed.

Lemma preserves_ret {A} (a : A) : preserves (touches r l f) (ret a).
Proof. intros w. apply touches_refl. Qed.

Lemma preserves_throw {A} (e : Error) : preserves (touches r l f) (throw (A:=A) e).
Proof. intros w. apply touches_refl. Qed.

Lemma preserves_of_res {A} (x : Res A) : preserves (touches r l f) (of_res x).
Proof. intros w. apply touches_refl. Qed.

Lemma preserves_call {A} (ev : Event) (op : ST Reg A) :
  preserves (touches r l f) (call r ev op).
Proof.
  intros w. unfold call. destruct (op (regs w r)) as [x s]. apply touches_call.
Qed.

Lemma preserves_bind {A B} (m : M A) (k : A -> M B) :
  preserves (touches r l f) m -> (forall a, preserves (touches r l f) (k a)) ->
  preserves (touches r l f) (bind m k).
Proof.
  intros Hm Hk w. unfold bind. specialize (Hm w).
  destruct (m w) as [[a|e] w1]; [|exact Hm].
  eapply touches_trans; [exact Hm | apply Hk].
Qed.

Lemma preserves_try_catch {A} (m : M A) (h : Error -> M A) :
  preserves (touches r l f) m -> (forall e, preserves (touches r l f) (h e)) ->
  preserves (touches r l f) (try_catch m h).
Proof.
  intros Hm Hh w. unfold try_catch. specialize (Hm w).
  destruct (m w) as [[a|e] w1]; [exact Hm|].
  eapply touches_trans; [exact Hm | apply Hh].
Qed.

Lemma preserves_expect_not_toThrow {A} (m : M A) :
  preserves (touches r l f) m -> preserves (touches r l f) (expect_not_toThrow m).
Proof.
  intros Hm. unfold expect_not_toThrow. apply preserves_try_catch.
  - apply preserves_bind; [exact Hm | intros a; apply preserves_ret].
  - intros e. apply preserves_throw.
Qed.

End Touches.

Lemma preserves_console_warn (r : Registry) (f : string -> Prop) (msg : string) :
  preserves (touches r true f) (console_warn msg).
Proof.
  intros w. do 4 (split; [reflexivity || auto|]).
  split; [exists []; simpl; now rewrite app_nil_r|].
  split; [exists [console_warn_line msg]; split; [reflexivity | discriminate]|].
  split; [auto | reflexivity].
Qed.

Lemma preserves_call_printing {A} (r : Registry) (f : string -> Prop) (ev : Event)
    (op : ST Reg A) (prints : Reg -> list ConsoleLine) :
  preserves (touches r true f) (call_printing r ev op prints).
Proof.
  intros w. unfold call_printing. destruct (op (regs w r)) as [x s]. cbn [snd].
  do 3 (split; [reflexivity|]).
  split; [intros i Hi; simpl; apply Nat.eqb_neq in Hi; now rewrite Hi|].
  split; [now exists [ev]|].
  split; [eexists; split; [reflexivity | discriminate]|].
  split; [auto | reflexivity].
Qed.

Section Registers.
Variables (R : World -> World -> Prop) (P : M unit -> Prop).
Hypothesis R_refl : forall w, R w w.
Hypothesis R_trans : forall w1 w2 w3, R w1 w2 -> R w2 w3 -> R w1 w3.

Lemma registers_run {A} (m : M A) : preserves R m -> registers R P (run m).
Proof.
  intros Hm c. unfold run. specialize (Hm (world c)).
  destruct (m (world c)) as [x w']. cbn [snd world path tests].
  split; [exact Hm|]. split; [reflexivity|].
  exists []. split; [now rewrite app_nil_r | constructor].
Qed.

Lemma registers_register (skip : bool) (name : string) (fn : M unit) :
  P fn -> registers R P (register skip name fn).
Proof.
  intros Hfn c. cbn. split; [apply R_refl|]. split; [reflexivity|].
  eexists. split; [reflexivity|]. repeat constructor; [|exact Hfn].
  exists []. cbn. now rewrite app_nil_r.
Qed.

Lemma registers_ret {A} (a : A) : registers R P (ret a).
Proof.
  intros c. cbn. split; [apply R_refl|]. split; [reflexivity|].
  exists []. split; [now rewrite app_nil_r | constructor].
Qed.

Lemma registers_throw {A} (e : Error) : registers R P (throw (A:=A) e).
Proof.
  intros c. cbn. split; [apply R_refl|]. split; [reflexivity|].
  exists []. split; [now rewrite app_nil_r | constructor].
Qed.

Lemma registers_bind {A B} (m : Collect A) (k : A -> Collect B) :
  registers R P m -> (forall a, registers R P (k a)) -> registers R P (bind m k).
Proof.
  intros Hm Hk c. unfold bind. specialize (Hm c).
  destruct (m c) as [[a|e] c1]; [|exact Hm].
  cbn [snd] in Hm. destruct Hm as (HR & Hp & new1 & Ht & Hall).
  destruct (Hk a c1) as (HR2 & Hp2 & new2 & Ht2 & Hall2).
  split; [eapply R_trans; eassumption|]. split; [congruence|].
  exists (new1 ++ new2)%list. split; [rewrite Ht2, Ht; now rewrite <- app_assoc|].
  apply Forall_app. split; [exact Hall|]. now rewrite Hp in Hall2.
Qed.

(** The checks registered inside [describe(name, ...)] are filed under
    [name]. *)
Lemma describe_registers (name : string) (fn : Collect unit) (c : Collector) :
  registers R P fn ->
  R (world c) (world (snd (describe name fn c))) /\
  path (snd (describe name fn c)) = path c /\
  exists new,
    tests (snd (describe name fn c)) = (tests c ++ new)%list /\
    Forall (fun t => (exists below, suite t = ((path c ++ [name]) ++ below)%list) /\
                     P (body t)) new.
Proof.
  intros Hfn. unfold describe.
  specialize (Hfn (mkCollector (world c) (path c ++ [name]) (tests c) (suite_errors c))).
  destruct (fn _) as [x c']. cbn [snd world path tests] in *.
  destruct Hfn as (HR & _ & new & Ht & Hall).
  split; [exact HR|]. split; [reflexivity|]. now exists new.
Qed.

Lemma registers_describe (name : string) (fn : Collect unit) :
  registers R P fn -> registers R P (describe name fn).
Proof.
  intros Hfn c. destruct (describe_registers name fn c Hfn) as (HR & Hp & new & Ht & Hall).
  split; [exact HR|]. split; [exact Hp|]. exists new. split; [exact Ht|].
  eapply List.Forall_impl; [|exact Hall]. intros t [[below Hs] Hb]. split; [|exact Hb].
  exists ([name] ++ below)%list. now rewrite Hs, <- app_assoc.
Qed.

Lemma registers_forEach {A} (xs : list A) (g : A -> Collect unit) :
  (forall x, registers R P (g x)) -> registers R P (forEach xs g).
Proof.
  intros Hg. induction xs as [|x xs IH]; cbn [forEach].
  - apply registers_ret.
  - apply registers_bind; [apply Hg | intros _; exact IH].
Qed.

(** What a theorem about the bodies needs of [registers]. *)
Lemma registers_bodies {A} (m : Collect A) (c : Collector) :
  registers R P m ->
  R (world c) (world (snd (m c))) /\
  exists new, tests (snd (m c)) = (tests c ++ new)%list /\
              Forall (fun t => P (body t)) new.
Proof.
  intros Hm. destruct (Hm c) as (HR & _ & new & Ht & Hall).
  split; [exact HR|]. exists new. split; [exact Ht|].
  eapply List.Forall_impl; [|exact Hall]. now intros t [_ Hb].
Qed.

End Registers.

Lemma touches_weaken (r : Registry) (l l' : bool) (f f' : string -> Prop) (w w' : World) :
  touches r l f w w' -> (l = true -> l' = true) -> (forall p, f p -> f' p) ->
  touches r l' f' w w'.
Proof.
  intros (Hn & Hc & He & Hr & Hm & (lines & Hl & Hq) & Hf & Hw) Hll Hff.
  do 5 (split; [assumption|]). split.
  - exists lines. split; [exact Hl|]. intros Hl'. apply Hq.
    destruct l; [now rewrite Hll in Hl' | reflexivity].
  - split; [|exact Hw]. intros p Hp. apply Hf. intros Hfp. apply Hp. now apply Hff.
Qed.

Lemma touches_no_file (r : Registry) (l : bool) (w w' : World) :
  touches r l no_file w w' -> files w' = files w.
Proof.
  intros (_ & _ & _ & _ & _ & _ & Hf & _). apply map_eq. intros p. apply Hf. intros [].
Qed.

Lemma preserves_confined (r : Registry) (l : bool) (version : Z) (type : string)
    (body : M unit) :
  preserves (touches r l no_file) body -> confined r version type body.
Proof.
  intros Hb w. split.
  - eapply touches_weaken; [apply Hb | auto | intros p []].
  - intros _. eapply touches_no_file, Hb.
Qed.

(** ** decodeLatestMeta *)

Lemma compare_or_write_confined (r : Registry) (json : JSON) (version : Z)
    (type : string) (sub : Sub) (w : World) :
  touches r true (own_fixtures w version type) w
    (snd (compare_or_write json version type sub w)) /\
  (in_CI w = true -> snd (compare_or_write json version type sub w) = w).
Proof.
  destruct (compare_or_write_eq json version type sub w) as [error ->].
  destruct (matches_fixture json w version type sub);
    [split; [apply touches_refl | reflexivity]|].
  destruct (in_CI w); [split; [apply touches_refl | reflexivity]|].
  split; [|discriminate].
  destruct (write_errors w !! fixture_file w version type sub) as [e|]; cbn [snd].
  - do 4 (split; [reflexivity|]).
    split; [exists []; cbn; now rewrite app_nil_r|].
    split; [eexists; split; [reflexivity | discriminate]|].
    split; [auto | reflexivity].
  - unfold reconciled, touches. cbn.
    do 4 (split; [reflexivity|]).
    split; [exists []; now rewrite app_nil_r|].
    split; [eexists; split; [reflexivity | discriminate]|].
    split; [|reflexivity].
    intros p Hp. apply lookup_insert_ne. intros <-. apply Hp.
    destruct sub; [now left | now right].
Qed.

Lemma substrate_check_confined (registry : Registry) (type : string) (version : Z)
    (metadata : Metadata) :
  confined registry version type
    (decodes_latest_substrate_properly registry type version metadata).
Proof.
  intros w. unfold decodes_latest_substrate_properly.
  destruct (Metadata_toJSON metadata (regs w registry)) as [[tree|e] s] eqn:Htree.
  2:{ rewrite (bind_throw _ _ _ _ _ (call_eq _ _ _ _ _ _ Htree)).
      split; [apply touches_call | reflexivity]. }
  rewrite (bind_ok _ _ _ _ _ (call_eq _ _ _ _ _ _ Htree)).
  unfold bind at 1, of_res.
  destruct (delete_lookup tree _) as [json|e];
    [|split; [apply touches_call | reflexivity]].
  unfold bind at 1, expect_toBe.
  destruct (Metadata_version metadata =? version)%Z; unfold ret, throw;
    [|split; [apply touches_call | reflexivity]].
  pose (w1 := with_call (Call_Metadata_toJSON metadata) (with_reg registry s w)).
  destruct (compare_or_write_confined registry json version type sub_json w1) as [Ht Hci].
  split.
  - eapply touches_trans; [apply touches_call | exact Ht].
  - intros Hin.
    change (files (snd (compare_or_write json version type sub_json w1)) = files w).
    rewrite (Hci Hin). reflexivity.
Qed.

Lemma types_check_confined (registry : Registry) (type : string) (version : Z)
    (metadata : Metadata) :
  confined registry version type
    (decodes_latest_types_correctly registry type version metadata).
Proof.
  intros w. unfold decodes_latest_types_correctly.
  destruct (asLatest metadata (regs w registry)) as [[latest|e] s] eqn:Hlatest.
  2:{ rewrite (bind_throw _ _ _ _ _ (call_eq _ _ _ _ _ _ Hlatest)).
      split; [apply touches_call | reflexivity]. }
  rewrite (bind_ok _ _ _ _ _ (call_eq _ _ _ _ _ _ Hlatest)).
  set (w1 := with_call (Call_asLatest metadata) (with_reg registry s w)).
  destruct (types_toJSON (lookup latest) (regs w1 registry)) as [[json|e] s2] eqn:Htypes.
  2:{ rewrite (bind_throw _ _ _ _ _ (call_eq _ _ _ _ _ _ Htypes)).
      split; [|reflexivity].
      eapply touches_trans; [apply touches_call | apply touches_call]. }
  rewrite (bind_ok _ _ _ _ _ (call_eq _ _ _ _ _ _ Htypes)).
  pose (w2 := with_call (Call_types_toJSON (lookup latest)) (with_reg registry s2 w1)).
  destruct (compare_or_write_confined registry json version type sub_types w2) as [Ht Hci].
  split.
  - eapply touches_trans; [apply touches_call|].
    eapply touches_trans; [apply touches_call | exact Ht].
  - intros Hin.
    change (files (snd (compare_or_write json version type sub_types w2)) = files w).
    rewrite (Hci Hin). reflexivity.
Qed.

Lemma decodeLatestMeta_registers_confined
    (registry : Registry) (type : string) (version : Z) (check : Check) :
  registers (touches registry false no_file) (confined registry version type)
    (decodeLatestMeta registry type version check).
Proof.
  pose proof (touches_refl registry false no_file) as Hrefl.
  pose proof (touches_trans registry false no_file) as Htrans.
  unfold decodeLatestMeta.
  apply registers_bind; auto; [apply registers_run, preserves_call|]. intros metadata.
  apply registers_bind; auto; [apply registers_run, preserves_call|]. intros _.
  apply registers_bind; auto;
    [apply registers_register; auto; apply substrate_check_confined|]. intros _.
  destruct (14 <=? version)%Z; [|now apply registers_ret].
  apply registers_register; auto. apply types_check_confined.
Qed.

(** X7.  Registration by [decodeLatestMeta] only calls the codec on its
    own registry.  Each check it registers stays within that registry,
    the console and the two fixture files of its [(version, type)], and
    writes no file at all when GITHUB_REPOSITORY is set. *)
Theorem decodeLatestMeta_writes_only_own_fixtures
    (registry : Registry) (type : string) (version : Z) (check : Check) (c : Collector) :
  let c' := snd (decodeLatestMeta registry type version check c) in
  touches registry false no_file (world c) (world c') /\
  exists new,
    tests c' = (tests c ++ new)%list /\
    Forall (fun t => forall w,
              touches registry true (own_fixtures w version type) w (snd (body t w)) /\
              (in_CI w = true -> files (snd (body t w)) = files w)) new.
Proof.
  intros c'.
  exact (registers_bodies _ _ _ c
           (decodeLatestMeta_registers_confined registry type version check)).
Qed.

(** ** serialize *)

Lemma serialize_registers_confined (registry : Registry) (check : Check) :
  registers (touches registry false no_file)
    (preserves (touches registry false no_file))
    (serialize registry check).
Proof.
  pose proof (touches_refl registry false no_file) as Hrefl.
  pose proof (touches_trans registry false no_file) as Htrans.
  unfold serialize.
  apply registers_bind; auto; [apply registers_run, preserves_call|]. intros metadata.
  apply registers_bind; auto.
  { apply registers_register; auto.
    apply preserves_bind; [apply preserves_call|]. intros hex.
    unfold expect_toEqual_string.
    destruct (String.eqb hex (data check)); [apply preserves_ret | apply preserves_throw]. }
  intros _. apply registers_bind; auto.
  { apply registers_register; auto. apply preserves_expect_not_toThrow.
    apply preserves_bind; [apply preserves_call|]. intros hex. apply preserves_call. }
  intros _. apply registers_register; auto. apply preserves_expect_not_toThrow.
  apply preserves_bind; [apply preserves_call|]. intros callsOnly.
  apply preserves_bind; [apply preserves_call|]. intros hex. apply preserves_call.
Qed.

(** X8.  Registration by [serialize] and the checks it registers only
    call the codec on their own registry: they write no file, print
    nothing and leave every other registry as it was. *)
Theorem serialize_is_silent (registry : Registry) (check : Check) (c : Collector) :
  let c' := snd (serialize registry check c) in
  touches registry false no_file (world c) (world c') /\
  exists new,
    tests c' = (tests c ++ new)%list /\
    Forall (fun t => forall w, touches registry false no_file w (snd (body t w))) new.
Proof.
  intros c'.
  exact (registers_bodies _ _ _ c (serialize_registers_confined registry check)).
Qed.

(** ** toLatest *)

Lemma converts_to_latest_preserves (registry : Registry) (check : Check) (withThrow : bool) :
  preserves (touches registry true no_file) (converts_to_latest registry check withThrow).
Proof.
  unfold converts_to_latest.
  apply preserves_bind; [apply preserves_call|]. intros metadata.
  apply preserves_bind; [apply preserves_call|]. intros _.
  apply preserves_bind; [apply preserves_call|]. intros latest.
  destruct (Metadata_version metadata <? 14)%Z; [|apply preserves_ret].
  apply preserves_bind; [apply preserves_call_printing | intros names; apply preserves_ret].
Qed.

Lemma toLatest_registers_confined
    (registry : Registry) (version : Z) (check : Check) (withThrow : option bool) :
  registers (fun w w' => w' = w) (preserves (touches registry true no_file))
    (toLatest registry version check withThrow).
Proof.
  unfold toLatest. apply registers_register; [reflexivity|].
  apply converts_to_latest_preserves.
Qed.



(** ** defaultValues *)

Lemma default_value_check_preserves
    (registry : Registry) (location : string) (item : StorageEntryMetadata)
    (fails : list string) (withThrow withFallbackCheck : bool) :
  preserves (touches registry true no_file)
    (default_value_check registry location item fails withThrow withFallbackCheck).
Proof.
  unfold default_value_check. apply preserves_try_catch.
  - unfold decode_fallback. apply preserves_bind.
    + unfold create_instance.
      apply preserves_bind; [apply preserves_call|]. intros id.
      apply preserves_bind; [apply preserves_call|]. intros typeName.
      apply preserves_bind; [apply preserves_call|]. intros hex.
      apply preserves_bind; [apply preserves_of_res|]. intros u8a.
      apply preserves_call.
    + intros instance. destruct withFallbackCheck; [|apply preserves_ret].
      unfold fallback_check.
      apply preserves_bind; [apply preserves_call|]. intros encoded.
      apply preserves_bind; [apply preserves_call|]. intros original.
      destruct (negb _); [apply preserves_throw | apply preserves_ret].
  - intros error. cbv zeta.
    destruct (withThrow && negb _); [apply preserves_throw | apply preserves_console_warn].
Qed.

Lemma defaultValues_registers_confined
    (registry : Registry) (check : Check) (withThrow withFallbackCheck : option bool) :
  registers (touches registry false no_file)
    (preserves (touches registry true no_file))
    (defaultValues registry check withThrow withFallbackCheck).
Proof.
  pose proof (touches_refl registry false no_file) as Hrefl.
  pose proof (touches_trans registry false no_file) as Htrans.
  unfold defaultValues. apply registers_describe.
  apply registers_bind; auto; [apply registers_run, preserves_call|]. intros metadata.
  apply registers_bind; auto; [apply registers_run, preserves_call|]. intros latest.
  apply registers_forEach; auto. intros pallet. unfold each_pallet.
  destruct (storage pallet) as [st|]; [|now apply registers_throw].
  apply registers_forEach; auto. intros item. unfold each_item.
  apply registers_bind; auto; [apply registers_run, preserves_call|]. intros inner.
  apply registers_register; auto.
  apply preserves_expect_not_toThrow, default_value_check_preserves.
Qed.

(** X14.  Registration by [defaultValues] only calls the codec on its own
    registry, and each check it registers does the same and may print:
    no file is written and no other registry is touched. *)
Theorem defaultValues_only_warns
    (registry : Registry) (check : Check) (withThrow withFallbackCheck : option bool)
    (c : Collector) :
  let c' := snd (defaultValues registry check withThrow withFallbackCheck c) in
  touches registry false no_file (world c) (world c') /\
  exists new,
    tests c' = (tests c ++ new)%list /\
    Forall (fun t => forall w, touches registry true no_file w (snd (body t w))) new.
Proof.
  intros c'.
  exact (registers_bodies _ _ _ c
           (defaultValues_registers_confined registry check withThrow withFallbackCheck)).
Qed.

(** ** testMeta *)

Lemma registers_weaken {A} (R R' : World -> World -> Prop) (P P' : M unit -> Prop)
    (m : Collect A) :
  (forall w w', R w w' -> R' w w') -> (forall b, P b -> P' b) ->
  registers R P m -> registers R' P' m.
Proof.
  intros HR HP Hm c. destruct (Hm c) as (H1 & H2 & new & H3 & H4).
  split; [now apply HR|]. split; [exact H2|]. exists new. split; [exact H3|].
  eapply List.Forall_impl; [|exact H4]. intros t [Hs Hb]. split; [exact Hs | now apply HP].
Qed.

Lemma fixture_checks_confined
    (registry : Registry) (type : string) (version : Z) (matcher : Check)
    (withFallback : bool) :
  registers (touches registry false no_file) (confined registry version type)
    (serialize registry matcher;;
     decodeLatestMeta registry type version matcher;;
     toLatest registry version matcher None;;
     defaultValues registry matcher (Some true) (Some withFallback)).
Proof.
  pose proof (touches_refl registry false no_file) as Hrefl.
  pose proof (touches_trans registry false no_file) as Htrans.
  apply registers_bind; auto.
  { eapply registers_weaken; [| |apply serialize_registers_confined]; auto.
    intros b. apply preserves_confined. }
  intros _. apply registers_bind; auto; [apply decodeLatestMeta_registers_confined|].
  intros _. apply registers_bind; auto.
  { eapply registers_weaken; [| |apply toLatest_registers_confined].
    - intros w w' ->. apply Hrefl.
    - intros b. apply preserves_confined. }
  intros _. eapply registers_weaken; [| |apply defaultValues_registers_confined]; auto.
  intros b. apply preserves_confined.
Qed.

Lemma describe_returns (name : string) (fn : Collect unit) (c : Collector) :
  describe name fn c = (Ok tt, snd (describe name fn c)).
Proof. unfold describe. now destruct (fn _). Qed.

Lemma fixtures_loop (version : Z) (withFallback : bool) (matchers : list (string * Check)) :
  forall c : Collector,
    let step := fun entry : string * Check =>
      let* registry := run new_registry in
      describe (fst entry)
        (serialize registry (snd entry);;
         decodeLatestMeta registry (fst entry) version (snd entry);;
         toLatest registry version (snd entry) None;;
         defaultValues registry (snd entry) (Some true) (Some withFallback)) in
    let c' := snd (forEach matchers step c) in
    let n := next_registry (world c) in
    fst (forEach matchers step c) = Ok tt /\
    path c' = path c /\
    next_registry (world c') = (n + List.length matchers)%nat /\
    cwd (world c') = cwd (world c) /\
    env (world c') = env (world c) /\
    files (world c') = files (world c) /\
    console (world c') = console (world c) /\
    (forall i, (i < n)%nat -> regs (world c') i = regs (world c) i) /\
    exists new,
      tests c' = (tests c ++ new)%list /\
      Forall (fun t => exists (i : nat) (entry : string * Check),
                matchers !! i = Some entry /\
                (exists below, suite t = ((path c ++ [fst entry]) ++ below)%list) /\
                confined (n + i)%nat version (fst entry) (body t)) new.
Proof.
  induction matchers as [|[type matcher] rest IH]; intros c step c' n.
  - subst c' n. cbn. repeat split; auto.
    exists []. split; [now rewrite app_nil_r | constructor].
  - subst c'. cbn [forEach].
    set (c1 := mkCollector
                 (mkWorld (fun i => if Nat.eqb i n then new_TypeRegistry else regs (world c) i)
                    (S n) (cwd (world c)) (env (world c)) (files (world c))
                    (write_errors (world c)) (console (world c)) (calls (world c)))
                 (path c) (tests c) (suite_errors c)).
    assert (Hnew : run new_registry c = (Ok n, c1)) by reflexivity.
    pose proof (describe_registers _ _ type _ c1
                  (fixture_checks_confined n type version matcher withFallback))
      as (Ht & Hp & new1 & Htests & Hall).
    set (c2 := snd (describe type
                      (serialize n matcher;;
                       decodeLatestMeta n type version matcher;;
                       toLatest n version matcher None;;
                       defaultValues n matcher (Some true) (Some withFallback)) c1)) in *.
    assert (Hstep : step (type, matcher) c = (Ok tt, c2)).
    { unfold step. rewrite (bind_ok _ _ _ _ _ Hnew). apply describe_returns. }
    rewrite (bind_ok _ _ _ _ _ Hstep).
    specialize (IH c2). cbv zeta in IH. fold step in IH.
    destruct IH as (Hok & Hpath & Hnext & Hcwd & Henv & Hfiles & Hcon & Hregs & new2 & Ht2 & Hall2).
    pose proof (touches_no_file _ _ _ _ Ht) as Hf1.
    destruct Ht as (Hn1 & Hcwd1 & Henv1 & Hregs1 & _ & (lines & Hcon1 & Hlines) & _).
    rewrite (Hlines eq_refl), app_nil_r in Hcon1.
    cbn [world next_registry cwd env files console regs path c1] in *.
    split; [exact Hok|]. split; [rewrite Hpath, Hp; reflexivity|].
    split; [rewrite Hnext, Hn1; cbn [List.length]; lia|].
    split; [congruence|]. split; [congruence|]. split; [congruence|]. split; [congruence|].
    split.
    + intros i Hi. rewrite Hregs by (rewrite Hn1; lia).
      rewrite Hregs1 by lia.
      assert (Hne : Nat.eqb i n = false) by (apply Nat.eqb_neq; lia). now rewrite Hne.
    + exists (new1 ++ new2)%list. split; [rewrite Ht2, Htests; now rewrite <- app_assoc|].
      apply Forall_app. split.
      * eapply List.Forall_impl; [|exact Hall]. intros t [Hsuite Hconf].
        exists 0%nat, (type, matcher). split; [reflexivity|]. split; [exact Hsuite|].
        rewrite Nat.add_0_r. exact Hconf.
      * eapply List.Forall_impl; [|exact Hall2]. intros t (i & entry & Hi & Hsuite & Hconf).
        exists (S i), entry. split; [exact Hi|]. rewrite Hp in Hsuite. split; [exact Hsuite|].
        rewrite Hn1 in Hconf. now replace (n + S i)%nat with (S n + i)%nat by lia.
Qed.

(** X18.  Registration by [testMeta] never throws, allocates one new registry
    per fixture and leaves the file system, the environment, the console
    and every registry that existed before as they were.  Each check it
    registers belongs to one entry of [matchers]: it is filed under
    'MetadataV<version>' and that entry's name, and it stays within the
    registry allocated for that entry (the i-th new one for the i-th
    entry), the console and that entry's two fixture files, writing no
    file when GITHUB_REPOSITORY is set. *)
Theorem testMeta_registration
    (version : Z) (matchers : list (string * Check)) (withFallback : option bool)
    (c : Collector) :
  let c' := snd (testMeta version matchers withFallback c) in
  let n := next_registry (world c) in
  fst (testMeta version matchers withFallback c) = Ok tt /\
  path c' = path c /\
  next_registry (world c') = (n + List.length matchers)%nat /\
  cwd (world c') = cwd (world c) /\
  env (world c') = env (world c) /\
  files (world c') = files (world c) /\
  console (world c') = console (world c) /\
  (forall i, (i < n)%nat -> regs (world c') i = regs (world c) i) /\
  exists new,
    tests c' = (tests c ++ new)%list /\
    Forall (fun t => exists (i : nat) (entry : string * Check),
              matchers !! i = Some entry /\
              (exists below,
                 suite t = ((path c ++ ["MetadataV" +:+ number_toString version;
                                        fst entry]) ++ below)%list) /\
              confined (n + i)%nat version (fst entry) (body t)) new.
Proof.
  intros c' n. subst c'. unfold testMeta, describe.
  set (c0 := mkCollector (world c) _ (tests c) (suite_errors c)).
  pose proof (fixtures_loop version (default true withFallback) matchers c0) as Hloop.
  cbv zeta in Hloop.
  destruct (forEach matchers _ c0) as [x c2]. cbn [fst snd world path tests c0] in *.
  destruct Hloop as (_ & _ & Hnext & Hcwd & Henv & Hfiles & Hcon & Hregs & new & Ht & Hall).
  split; [reflexivity|]. split; [reflexivity|].
  do 6 (split; [assumption|]). exists new. split; [exact Ht|].
  eapply List.Forall_impl; [|exact Hall]. intros t (i & entry & Hi & [below Hs] & Hconf).
  exists i, entry. split; [exact Hi|]. split; [|exact Hconf].
  exists below. rewrite Hs. now rewrite <- !app_assoc.
Qed.

(** * Further behaviour of the helpers *)

(** ** Fixture files *)

(** X5.  A stored fixture that is deep-equal to the produced tree lets the
    check 'decodes latest substrate properly' pass without a word, with
    GITHUB_REPOSITORY set or not: nothing is logged and nothing written. *)
Theorem matching_fixture_passes_silently
    (registry : Registry) (type : string) (version : Z) (metadata : Metadata)
    (w : World) (tree json fixture : JSON) (s : Reg) :
  Metadata_toJSON metadata (regs w registry) = (Ok tree, s) ->
  delete_lookup tree ("v" +:+ number_toString (Metadata_version metadata)) = Ok json ->
  Metadata_version metadata = version ->
  stored_fixture w version type sub_json = Some fixture ->
  deepEqual json fixture = true ->
  decodes_latest_substrate_properly registry type version metadata w
  = (Ok tt, with_call (Call_Metadata_toJSON metadata) (with_reg registry s w)).
Proof.
  intros Htree Hdel Hver Hfx Heq. unfold decodes_latest_substrate_properly.
  rewrite (bind_ok _ _ _ _ _ (call_eq _ _ _ _ _ _ Htree)).
  unfold bind at 1, of_res. rewrite Hdel.
  unfold bind at 1, expect_toBe. rewrite Hver, Z.eqb_refl.
  now apply (compare_or_write_match json fixture).
Qed.

(** X6.  Self-healing settles: outside continuous integration, once a mismatch
    has rewritten the fixture, comparing the same tree again passes and
    changes nothing, provided the fixture file can be written and the
    written text parses back to a tree that is deep-equal to the one
    written. *)
Theorem rewritten_fixture_matches_next_time
    (json reread : JSON) (version : Z) (type : string) (sub : Sub) (w : World) :
  in_CI w = false ->
  matches_fixture json w version type sub = false ->
  write_errors w !! fixture_file w version type sub = None ->
  JSON_parse (stringify json 2) = Ok reread ->
  deepEqual json reread = true ->
  let w1 := snd (compare_or_write json version type sub w) in
  fst (compare_or_write json version type sub w) = Ok tt /\
  files w1 !! fixture_file w version type sub = Some (stringify json 2) /\
  compare_or_write json version type sub w1 = (Ok tt, w1).
Proof.
  intros Hci Hmis Hwritable Hparse Heq w1. subst w1.
  destruct (compare_or_write_eq json version type sub w) as [error He].
  rewrite He, Hmis, Hci, Hwritable. cbn [fst snd]. split; [reflexivity|].
  assert (Hfile : files (reconciled error json version type sub w)
                    !! fixture_file w version type sub = Some (stringify json 2)).
  { unfold reconciled. cbn [files with_file]. apply lookup_insert_eq. }
  split; [exact Hfile|].
  apply (compare_or_write_match json reread).
  - unfold stored_fixture.
    change (fixture_file (reconciled error json version type sub w))
      with (fixture_file w).
    now rewrite Hfile, Hparse.
  - exact Heq.
Qed.

(** ** toLatest *)

(** X11.  The check of [toLatest] stops at the first step that throws and fails
    with that error: a decode error before anything is bound, a
    [setMetadata] error before [asLatest], and an [asLatest] error before
    [getUniqTypes], whatever the version. *)
Theorem converts_to_latest_stops_at_first_failure
    (registry : Registry) (check : Check) (withThrow : bool) (w : World) :
  let decoded := Call_new_Metadata registry (data check) in
  match new_Metadata (data check) (regs w registry) with
  | (Throw e, s1) =>
      converts_to_latest registry check withThrow w
      = (Throw e, with_call decoded (with_reg registry s1 w))
  | (Ok metadata, s1) =>
      let w1 := with_call decoded (with_reg registry s1 w) in
      let bound := Call_setMetadata registry metadata in
      match setMetadata metadata s1 with
      | (Throw e, s2) =>
          converts_to_latest registry check withThrow w
          = (Throw e, with_call bound (with_reg registry s2 w1))
      | (Ok _, s2) =>
          let w2 := with_call bound (with_reg registry s2 w1) in
          match asLatest metadata s2 with
          | (Throw e, s3) =>
              converts_to_latest registry check withThrow w
              = (Throw e, with_call (Call_asLatest metadata) (with_reg registry s3 w2))
          | (Ok _, _) => True
          end
      end
  end.
Proof.
  intros decoded. unfold converts_to_latest.
  destruct (new_Metadata (data check) (regs w registry)) as [[metadata|e] s1] eqn:Hdec.
  2:{ now rewrite (bind_throw _ _ _ _ _ (call_eq _ _ _ _ _ _ Hdec)). }
  rewrite (bind_ok _ _ _ _ _ (call_eq _ _ _ _ _ _ Hdec)). cbv zeta.
  destruct (setMetadata metadata s1) as [[[]|e] s2] eqn:Hset.
  2:{ erewrite bind_throw; [reflexivity|]. apply call_eq. rewrite regs_after_call. exact Hset. }
  erewrite bind_ok; cycle 1.
  { apply call_eq. rewrite regs_after_call. exact Hset. }
  destruct (asLatest metadata s2) as [[latest|e] s3] eqn:Hlatest; [exact I|].
  erewrite bind_throw; [reflexivity|]. apply call_eq. rewrite regs_after_call. exact Hlatest.
Qed.

(** ** defaultValues *)

(** X15.  With [withThrow] false no storage item's check ever fails. *)
Theorem lenient_check_never_fails
    (registry : Registry) (location : string) (item : StorageEntryMetadata)
    (fails : list string) (withFallbackCheck : bool) (w : World) :
  fst (expect_not_toThrow
         (default_value_check registry location item fails false withFallbackCheck) w)
  = Ok tt.
Proof.
  destruct (decode_fallback registry item withFallbackCheck w) as [[[]|e] w1] eqn:Htry.
  - unfold expect_not_toThrow, default_value_check, try_catch, bind.
    now rewrite Htry.
  - unfold expect_not_toThrow, try_catch, bind.
    now rewrite (default_value_check_caught _ _ _ _ _ _ _ _ _ Htry).
Qed.

(** The two ways the function of lines 105-129 ends under
    [expect(...).not.toThrow()]. *)
Lemma default_check_outcome
    (registry : Registry) (location : string) (item : StorageEntryMetadata)
    (fails : list string) (withThrow withFallbackCheck : bool) (w : World) :
  let attempt := decode_fallback registry item withFallbackCheck w in
  let assertion :=
    expect_not_toThrow
      (default_value_check registry location item fails withThrow withFallbackCheck) in
  (is_ok (fst (assertion w)) = false
   <-> is_ok (fst attempt) = false /\ withThrow = true /\ not_exempt fails location) /\
  (is_ok (fst attempt) = true -> assertion w = (Ok tt, snd attempt)).
Proof.
  intros attempt assertion. subst attempt assertion.
  destruct (decode_fallback registry item withFallbackCheck w) as [[[]|e] w1] eqn:Htry.
  - assert (Hrun : expect_not_toThrow
                     (default_value_check registry location item fails withThrow
                        withFallbackCheck) w = (Ok tt, w1)).
    { unfold expect_not_toThrow, default_value_check, try_catch, bind. now rewrite Htry. }
    rewrite Hrun. cbn [fst snd is_ok].
    split; [split; [discriminate | intros [[=] _]] | reflexivity].
  - unfold expect_not_toThrow, try_catch, bind.
    rewrite (default_value_check_caught _ _ _ _ _ _ _ _ _ Htry).
    cbn [fst snd is_ok]. split; [|discriminate].
    destruct withThrow; cbn [andb].
    + destruct (some (fun f => includes location f) fails) eqn:Hsome; cbn [negb fst is_ok].
      * split; [discriminate|]. intros (_ & _ & Hno).
        apply some_includes_false in Hno. congruence.
      * split; [|reflexivity]. intros _. repeat split. now apply some_includes_false.
    + cbn [fst is_ok]. split; [discriminate | intros (_ & [=] & _)].
Qed.

(** X16.  Each check [defaultValues] registers for a storage item fails
    exactly when its [try] block throws, [withThrow] is true and no
    pattern of [check.fails] occurs in the check's title; when the [try]
    block returns, the check passes and prints nothing. *)
Theorem default_check_fails_iff
    (registry : Registry) (check : Check) (withThrow withFallbackCheck : option bool)
    (c : Collector) (metadata : Metadata) (latest : MetadataLatest) (s1 s2 : Reg) :
  new_Metadata (data check) (regs (world c) registry) = (Ok metadata, s1) ->
  asLatest metadata s1 = (Ok latest, s2) ->
  let strict := default true withThrow in
  let compare := default false withFallbackCheck in
  let fails := default [] (fails check) in
  let c' := snd (defaultValues registry check withThrow withFallbackCheck c) in
  let reached := fst (fst (unwrap_items (storage_items (pallets latest)) s2)) in
  exists new : list Test,
    tests c' = (tests c ++ new)%list /\
    (suite_errors c' = suite_errors c ->
     map fst reached = storage_items (pallets latest)) /\
    Forall2
      (fun v t =>
         title t = item_location (fst (fst v)) (snd (fst v)) (snd v) /\
         forall w : World,
           let attempt := decode_fallback registry (snd (fst v)) compare w in
           (is_ok (fst (body t w)) = false
            <-> is_ok (fst attempt) = false /\ strict = true /\
                not_exempt fails (title t)) /\
           (is_ok (fst attempt) = true -> body t w = (Ok tt, snd attempt)))
      reached new.
Proof.
  intros Hdec Hlatest strict compare fails0 c' reached. subst c'.
  destruct (defaultValues_checks registry check withThrow withFallbackCheck c
              metadata latest s1 s2 Hdec Hlatest) as (c' & Hrun & _ & Htests & Herrs).
  rewrite Hrun. cbn [snd]. eexists. split; [exact Htests|]. split.
  - intros Hsame. apply unwrap_items_complete.
    rewrite Hsame in Herrs. symmetry in Herrs.
    exact (suite_errors_unchanged _ _ _ Herrs).
  - apply Forall2_map_self. intros [[p item] inner]. cbn [fst snd].
    split; [reflexivity|]. intros w.
    exact (default_check_outcome registry (item_location p item inner) item
             fails0 strict compare w).
Qed.

(** X17.  Adding patterns to the allow-list never turns a passing check into a
    failing one: the check does exactly what it did. *)
Theorem allow_list_is_monotone
    (registry : Registry) (location : string) (item : StorageEntryMetadata)
    (fails more : list string) (withThrow withFallbackCheck : bool) (w : World) :
  fst (expect_not_toThrow
         (default_value_check registry location item fails withThrow withFallbackCheck) w)
  = Ok tt ->
  expect_not_toThrow
    (default_value_check registry location item (fails ++ more) withThrow withFallbackCheck) w
  = expect_not_toThrow
      (default_value_check registry location item fails withThrow withFallbackCheck) w.
Proof.
  destruct (decode_fallback registry item withFallbackCheck w) as [[[]|e] w1] eqn:Htry.
  - intros _. unfold expect_not_toThrow, default_value_check, try_catch, bind.
    now rewrite Htry.
  - unfold expect_not_toThrow, try_catch, bind.
    rewrite !(default_value_check_caught _ _ _ _ _ _ _ _ _ Htry).
    unfold some. rewrite existsb_app.
    destruct withThrow; [|reflexivity].
    destruct (existsb _ fails); [reflexivity | discriminate].
Qed.

(** X13.  When [check.data] does not decode, [defaultValues] registers no check
    and does not throw: the error fails the suite 'storage with default
    values'. *)
Theorem defaultValues_undecodable
    (registry : Registry) (check : Check) (withThrow withFallbackCheck : option bool)
    (c : Collector) (e : Error) (s : Reg) :
  new_Metadata (data check) (regs (world c) registry) = (Throw e, s) ->
  defaultValues registry check withThrow withFallbackCheck c
  = (Ok tt,
     mkCollector
       (with_call (Call_new_Metadata registry (data check)) (with_reg registry s (world c)))
       (path c) (tests c)
       (suite_errors c ++ [((path c ++ ["storage with default values"])%list, e)])%list).
Proof.
  intros Hdec. unfold defaultValues, describe.
  set (c0 := mkCollector (world c) _ (tests c) (suite_errors c)).
  assert (R1 := run_call_eq registry (Call_new_Metadata registry (data check)) _ c0 _ _ Hdec).
  now rewrite (bind_throw _ _ _ _ _ R1).
Qed.

(** ** testMeta on fixtures that do not decode *)

Lemma undecodable_fixture_step
    (version : Z) (withFallback : bool) (type : string) (matcher : Check)
    (c : Collector) (e : Error) (s : Reg) :
  new_Metadata (data matcher) new_TypeRegistry = (Throw e, s) ->
  exists w',
    (let* registry := run new_registry in
     describe type
       (serialize registry matcher;;
        decodeLatestMeta registry type version matcher;;
        toLatest registry version matcher None;;
        defaultValues registry matcher (Some true) (Some withFallback))) c
    = (Ok tt, mkCollector w' (path c) (tests c)
                (suite_errors c ++ [((path c ++ [type])%list, e)])%list).
Proof.
  intros Hdec.
  set (n := next_registry (world c)).
  set (c1 := mkCollector
               (mkWorld (fun i => if Nat.eqb i n then new_TypeRegistry else regs (world c) i)
                  (S n) (cwd (world c)) (env (world c)) (files (world c))
                  (write_errors (world c)) (console (world c)) (calls (world c)))
               (path c) (tests c) (suite_errors c)).
  assert (Hnew : run new_registry c = (Ok n, c1)) by reflexivity.
  rewrite (bind_ok _ _ _ _ _ Hnew). unfold describe.
  set (c2 := mkCollector (world c1) (path c1 ++ [type]) (tests c1) (suite_errors c1)).
  assert (Hreg : regs (world c2) n = new_TypeRegistry) by (cbn; now rewrite Nat.eqb_refl).
  assert (Hser : serialize n matcher c2
                 = (Throw e,
                    mkCollector
                      (with_call (Call_new_Metadata n (data matcher))
                         (with_reg n s (world c2)))
                      (path c2) (tests c2) (suite_errors c2))).
  { unfold serialize. apply bind_throw, run_call_eq. rewrite Hreg. exact Hdec. }
  rewrite (bind_throw _ _ _ _ _ Hser). eexists. reflexivity.
Qed.

(** X19.  Fixtures whose data does not decode on a new registry contribute no
    check at all: [testMeta] records, for each of them in order, the
    decode error against the suite of that fixture and goes on. *)
Theorem testMeta_undecodable_fixtures
    (version : Z) (matchers : list (string * Check)) (withFallback : option bool)
    (c : Collector) :
  Forall (fun entry =>
            is_ok (fst (new_Metadata (data (snd entry)) new_TypeRegistry)) = false)
    matchers ->
  let c' := snd (testMeta version matchers withFallback c) in
  tests c' = tests c /\
  exists errs,
    suite_errors c' = (suite_errors c ++ errs)%list /\
    Forall2 (fun entry failed =>
               fst failed
               = (path c ++ ["MetadataV" +:+ number_toString version; fst entry])%list /\
               fst (new_Metadata (data (snd entry)) new_TypeRegistry) = Throw (snd failed))
      matchers errs.
Proof.
  intros Hall c'. subst c'. unfold testMeta, describe.
  set (suite := (path c ++ ["MetadataV" +:+ number_toString version])%list).
  set (step := fun entry : string * Check => _).
  assert (Hloop : forall c0, path c0 = suite ->
            exists w' errs,
              forEach matchers step c0
              = (Ok tt, mkCollector w' suite (tests c0) (suite_errors c0 ++ errs)%list) /\
              Forall2 (fun entry failed =>
                         fst failed = (suite ++ [fst entry])%list /\
                         fst (new_Metadata (data (snd entry)) new_TypeRegistry)
                         = Throw (snd failed)) matchers errs).
  { induction Hall as [|[type matcher] rest Hbad Hrest IH]; intros c0 Hpath.
    - exists (world c0), []. split; [|constructor].
      cbn. rewrite app_nil_r, <- Hpath. now destruct c0.
    - cbn [fst snd] in Hbad.
      destruct (new_Metadata (data matcher) new_TypeRegistry) as [[m|e] s] eqn:Hdec;
        [discriminate|].
      destruct (undecodable_fixture_step version (default true withFallback) type matcher
                  c0 e s Hdec) as [w1 Hstep].
      cbn [forEach]. subst step. cbn beta. cbn [fst snd].
      rewrite (bind_ok _ _ _ _ _ Hstep).
      match goal with |- context [forEach rest ?g ?c1] =>
        destruct (IH c1 Hpath) as (w2 & errs & Hrun & Hforall) end.
      cbn [tests suite_errors] in Hrun.
      exists w2, (((path c0 ++ [type])%list, e) :: errs). split.
      + rewrite Hrun. now rewrite <- app_assoc.
      + constructor; [|exact Hforall]. cbn [fst snd]. now rewrite Hpath, Hdec. }
  destruct (Hloop (mkCollector (world c) suite (tests c) (suite_errors c)) eq_refl)
    as (w' & errs & Hrun & Hforall).
  rewrite Hrun. cbn [snd tests suite_errors]. split; [reflexivity|].
  exists errs. split; [reflexivity|].
  eapply Forall2_impl; [exact Hforall|]. intros entry failed [H1 H2]. subst suite.
  split; [rewrite H1; now rewrite <- app_assoc | exact H2].
Qed.

End Footprint.

(** * The helpers on concrete fixtures *)

Module Samples.
Import Mini.

(** The whole suite on the version-14 sample, in a checkout without
    fixtures: both fixture files are created, the item whose decoding
    drops a byte and the item that does not decode fail. *)
Example testMeta_substrate :
  let c := snd (testMeta 14 [("substrate", substrate)] None (start empty_world)) in
  let '(outcomes, w) := run_tests (tests c) (world c) in
  suite_errors c = [] /\
  map (fun o => (fst o, match snd o with Passed => "pass" | Failed _ => "fail" | Skipped => "skip" end))
      outcomes
  = [("serializes to hex in the same form as retrieved", "pass");
     ("can construct from a re-serialized form", "skip");
     ("can construct from asCallsOnly.toHex()", "pass");
     ("decodes latest substrate properly", "pass");
     ("decodes latest types correctly", "pass");
     ("converts v14 to latest", "pass");
     ("system.number: u32", "pass");
     ("system.digest: Option<Bytes>", "fail");
     ("system.legacy: Legacy", "fail")] /\
  map fst (map_to_list (files w))
  = ["/repo/packages/types-support/src/metadata/v14/substrate-json.json";
     "/repo/packages/types-support/src/metadata/v14/substrate-types.json"].
Proof. vm_compute. repeat split. Qed.

Lemma serialize_reencodes_identically_witness :
  exists (t t2 t3 : Test) (c' : Collector),
    serialize 0%nat substrate (start empty_world) = (Ok tt, c') /\
    tests c' = (tests (start empty_world) ++ [t; t2; t3])%list /\
    title t = "serializes to hex in the same form as retrieved" /\
    skipped t = false /\
    forall w : World,
      fst (body t w) = Ok tt
      <-> fst (Metadata_toHex m14 (regs w 0%nat)) = Ok (data substrate).
Proof.
  exact (serialize_reencodes_identically 0%nat substrate (start empty_world)
           m14 None eq_refl).
Defined.

(** C3, the claim as stated does not hold: without GITHUB_REPOSITORY and
    with no fixture stored, the check still fails when the fixture file
    cannot be written, and no fixture is written. *)
Lemma fixture_mismatch_fatal_iff_CI_counterexample :
  stored_fixture readonly_world 14 "substrate" sub_json = None /\
  ~ (is_ok (fst (decodes_latest_substrate_properly 0%nat "substrate" 14 m14 readonly_world))
     = false
     <-> in_CI readonly_world = true) /\
  fst (decodes_latest_substrate_properly 0%nat "substrate" 14 m14 readonly_world)
  = Throw (new_Error "EACCES: permission denied") /\
  files (snd (decodes_latest_substrate_properly 0%nat "substrate" 14 m14 readonly_world))
  = files readonly_world.
Proof.
  split; [vm_compute; reflexivity|]. split.
  - intros [Hfatal _].
    assert (Hfails : is_ok (fst (decodes_latest_substrate_properly 0%nat "substrate" 14 m14
                                   readonly_world)) = false) by (vm_compute; reflexivity).
    specialize (Hfatal Hfails). vm_compute in Hfatal. discriminate Hfatal.
  - split; vm_compute; reflexivity.
Qed.

(** In a continuous-integration run a stale fixture fails the check; in a
    checkout without fixtures the check passes and writes the file, and
    fails with the write's error when the file cannot be written. *)
Lemma fixture_mismatch_fatal_iff_CI_witness :
  is_ok (fst (decodes_latest_substrate_properly 0%nat "substrate" 14 m14 ci_world)) = false /\
  is_ok (fst (decodes_latest_substrate_properly 0%nat "substrate" 14 m14 empty_world)) = true /\
  fst (decodes_latest_substrate_properly 0%nat "substrate" 14 m14 readonly_world)
  = Throw (new_Error "EACCES: permission denied").
Proof.
  split; [|split].
  - destruct (fixture_mismatch_fatal_iff_CI (K:=collaborators) 0%nat "substrate" 14 m14 ci_world
                (tree m14) (remove_at ["metadata"; "v14"; "lookup"] (tree m14)) None
                eq_refl eq_refl eq_refl) as (error & _ & Hci & _).
    + intros fixture Hfx. vm_compute in Hfx. injection Hfx as <-. reflexivity.
    + rewrite (Hci eq_refl). reflexivity.
  - destruct (fixture_mismatch_fatal_iff_CI (K:=collaborators) 0%nat "substrate" 14 m14 empty_world
                (tree m14) (remove_at ["metadata"; "v14"; "lookup"] (tree m14)) None
                eq_refl eq_refl eq_refl) as (error & _ & _ & Hlocal & _).
    + intros fixture Hfx. vm_compute in Hfx. discriminate Hfx.
    + rewrite (Hlocal eq_refl eq_refl). reflexivity.
  - destruct (fixture_mismatch_fatal_iff_CI (K:=collaborators) 0%nat "substrate" 14 m14
                readonly_world
                (tree m14) (remove_at ["metadata"; "v14"; "lookup"] (tree m14)) None
                eq_refl eq_refl eq_refl) as (error & _ & _ & _ & Hblocked & _).
    + intros fixture Hfx. vm_compute in Hfx. discriminate Hfx.
    + rewrite (Hblocked eq_refl (new_Error "EACCES: permission denied") eq_refl). reflexivity.
Defined.

(** A mismatch of the declared version fails the check in any world. *)
Lemma declared_version_is_asserted_witness :
  exists (c' : Collector) (t : Test) (more : list Test),
    decodeLatestMeta 0%nat "substrate" 13 substrate (start empty_world) = (Ok tt, c') /\
    tests c' = t :: more /\
    title t = "decodes latest substrate properly" /\
    forall w : World, is_ok (fst (body t w)) = false.
Proof.
  destruct (declared_version_is_asserted (K:=collaborators) 0%nat "substrate" 13
              substrate (start empty_world) m14 None (Some m14) eq_refl eq_refl)
    as (c' & t & more & Hrun & Htests & Htitle & _ & Hbody).
  exists c', t, more. repeat split; try assumption.
  intros w. apply (Hbody w). discriminate.
Defined.

(** The sample tree loses [metadata.v14.lookup] and keeps its siblings. *)
Lemma lookup_removed_before_comparison_witness :
  exists json : JSON,
    delete_lookup (tree m14) "v14" = Ok json /\
    lookup_path json ["metadata"; "v14"; "lookup"] = None /\
    lookup_path json ["metadata"; "v14"; "pallets"]
    = Some (JArray [JString "System"; JString "Utility"]) /\
    lookup_path json ["magicNumber"] = Some (JNumber 1635018093) /\
    decodes_latest_substrate_properly 0%nat "substrate" 14 m14 empty_world
    = compare_or_write json 14 "substrate" sub_json
        (with_call (Call_Metadata_toJSON m14) (with_reg 0%nat None empty_world)).
Proof.
  pose proof (lookup_removed_before_comparison (K:=collaborators) 0%nat "substrate" 14
                m14 empty_world (tree m14) None eq_refl eq_refl) as Hthm.
  cbv zeta in Hthm.
  change (delete_lookup (tree m14) ("v" +:+ number_toString 14))
    with (Ok (A:=JSON) (remove_at ["metadata"; "v14"; "lookup"] (tree m14))) in Hthm.
  cbv beta iota in Hthm.
  destruct Hthm as (_ & Hgone & Hframe & Hbody).
  exists (remove_at ["metadata"; "v14"; "lookup"] (tree m14)).
  split; [reflexivity|].
  split; [exact (Hgone [])|].
  split; [rewrite Hframe; [reflexivity | exists 2%nat, "pallets", "lookup"; repeat split; discriminate]|].
  split; [rewrite Hframe; [reflexivity | exists 0%nat, "magicNumber", "metadata"; repeat split; discriminate]|].
  exact Hbody.
Defined.

(** A version-14 fixture gets the 'types' check. *)
Lemma types_check_iff_version_14_witness :
  exists (c' : Collector) (t : Test),
    decodeLatestMeta 0%nat "substrate" 14 substrate (start empty_world) = (Ok tt, c') /\
    In t (tests c') /\ title t = "decodes latest types correctly".
Proof.
  destruct (types_check_iff_version_14 (K:=collaborators) 0%nat "substrate" 14
              substrate (start empty_world) m14 None (Some m14) empty_world latest
              (JArray [JString "u32"]) None None eq_refl eq_refl eq_refl eq_refl)
    as (c' & new & Hrun & Htests & Hiff & _).
  destruct (proj2 Hiff ltac:(lia)) as (t & Hin & Htitle).
  exists c', t. split; [exact Hrun|]. split; [|exact Htitle].
  rewrite Htests. exact Hin.
Defined.

(** A version-9 fixture is scanned, strictly by default. *)
Lemma uniqueness_scan_iff_pre_v14_witness :
  exists t : Test,
    toLatest 0%nat 9 legacy_chain None (start empty_world)
    = (Ok tt, mkCollector empty_world [] [t] []) /\
    In (Call_getUniqTypes 0%nat latest true) (calls (snd (body t empty_world))).
Proof.
  destruct (uniqueness_scan_iff_pre_v14 (K:=collaborators) 0%nat 9 legacy_chain None
              (start empty_world) empty_world m9 latest None (Some m9) (Some m9)
              eq_refl eq_refl eq_refl)
    as (t & Hrun & _ & _ & after & Hcalls & Hiff & _).
  exists t. split; [exact Hrun|].
  rewrite Hcalls. apply in_or_app. right. apply in_or_app. right.
  apply Hiff. reflexivity.
Defined.

(** The sample has three storage items, so three checks, titled with
    their locations. *)
Lemma default_error_fatal_iff_strict_and_not_exempt_witness :
  exists new : list Test,
    tests (snd (defaultValues 0%nat substrate None None (start empty_world)))
    = (tests (start empty_world) ++ new)%list /\
    List.length new = 3%nat.
Proof.
  destruct (default_error_fatal_iff_strict_and_not_exempt (K:=collaborators) 0%nat
              substrate None None (start empty_world) m14 latest None None
              eq_refl eq_refl) as (new & Htests & _ & Hall).
  exists new. split; [exact Htests|].
  apply Forall2_length in Hall. rewrite <- Hall. reflexivity.
Defined.

(** With the empty pattern on the list the same error is only a warning. *)
Lemma empty_pattern_tolerates_every_error_witness :
  expect_not_toThrow
    (default_value_check 0%nat "system.legacy: Legacy" legacy_item
       (default [] (fails lenient)) true false) empty_world
  = (Ok tt,
     with_console (console_warn_line "system.legacy: Legacy:: unable to decode")
       (snd (decode_fallback 0%nat legacy_item false empty_world))).
Proof.
  assert (Htry : decode_fallback 0%nat legacy_item false empty_world
                 = (Throw (new_Error "unable to decode"),
                    snd (decode_fallback 0%nat legacy_item false empty_world)))
    by reflexivity.
  assert (Hin : In EmptyString (default [] (fails lenient))) by (simpl; auto).
  exact (empty_pattern_tolerates_every_error 0%nat lenient
           "system.legacy: Legacy" legacy_item true false _ _ _ Hin Htry).
Defined.

(** With the comparison on, the sample still gets its three checks. *)
Lemma fallback_round_trip_compared_witness :
  exists new : list Test,
    tests (snd (defaultValues 0%nat substrate None (Some true) (start empty_world)))
    = (tests (start empty_world) ++ new)%list /\
    List.length new = 3%nat.
Proof.
  destruct (fallback_round_trip_compared (K:=collaborators) 0%nat
              substrate None (Some true) (start empty_world) m14 latest None None
              eq_refl eq_refl) as (new & Htests & _ & Hall).
  exists new. split; [exact Htests|].
  apply Forall2_length in Hall. rewrite <- Hall. reflexivity.
Defined.

(** A version-9 tree has no [lookup] and is compared whole. *)
Lemma delete_lookup_without_lookup_witness :
  remove_at ["metadata"; "v9"; "lookup"] v9_tree = v9_tree.
Proof.
  assert (Hdel : delete_lookup v9_tree "v9" = Ok (remove_at ["metadata"; "v9"; "lookup"] v9_tree))
    by reflexivity.
  exact (delete_lookup_without_lookup v9_tree _ "v9" Hdel eq_refl).
Defined.

Lemma delete_lookup_idempotent_witness :
  delete_lookup golden "v14" = Ok golden.
Proof.
  assert (Hdel : delete_lookup (tree m14) "v14" = Ok golden) by reflexivity.
  exact (delete_lookup_idempotent (tree m14) golden "v14" Hdel).
Defined.

(** With the golden tree stored, the structural check passes and leaves
    the file system and the console alone. *)
Lemma matching_fixture_passes_silently_witness :
  decodes_latest_substrate_properly 0%nat "substrate" 14 m14 golden_world
  = (Ok tt, with_call (Call_Metadata_toJSON m14) (with_reg 0%nat None golden_world)).
Proof.
  assert (Hfx : stored_fixture golden_world 14 "substrate" sub_json = Some golden)
    by (vm_compute; reflexivity).
  exact (matching_fixture_passes_silently (K:=collaborators) 0%nat "substrate" 14 m14
           golden_world (tree m14) golden golden None eq_refl eq_refl eq_refl Hfx eq_refl).
Defined.

(** In an empty checkout the first comparison writes the fixture and the
    second passes. *)
Lemma rewritten_fixture_matches_next_time_witness :
  let w1 := snd (compare_or_write golden 14 "substrate" sub_json empty_world) in
  fst (compare_or_write golden 14 "substrate" sub_json empty_world) = Ok tt /\
  files w1 !! fixture_file empty_world 14 "substrate" sub_json = Some (print golden) /\
  compare_or_write golden 14 "substrate" sub_json w1 = (Ok tt, w1).
Proof.
  assert (Hmis : matches_fixture golden empty_world 14 "substrate" sub_json = false)
    by (vm_compute; reflexivity).
  assert (Hparse : JSON_parse (Collaborators:=collaborators) (print golden) = Ok golden)
    by (vm_compute; reflexivity).
  assert (Hwritable : write_errors empty_world
                        !! fixture_file empty_world 14 "substrate" sub_json = None)
    by (vm_compute; reflexivity).
  exact (rewritten_fixture_matches_next_time (K:=collaborators) golden golden 14
           "substrate" sub_json empty_world eq_refl Hmis Hwritable Hparse eq_refl).
Defined.

(** The exempted item stays exempt when the list grows. *)
Lemma allow_list_is_monotone_witness :
  fst (expect_not_toThrow
         (default_value_check 0%nat "system.legacy: Legacy" legacy_item
            (["legacy"] ++ ["digest"])%list true false) empty_world)
  = Ok tt.
Proof.
  assert (Hpass : fst (expect_not_toThrow
                         (default_value_check 0%nat "system.legacy: Legacy" legacy_item
                            ["legacy"] true false) empty_world) = Ok tt)
    by reflexivity.
  rewrite (allow_list_is_monotone 0%nat "system.legacy: Legacy" legacy_item
             ["legacy"] ["digest"] true false empty_world Hpass).
  exact Hpass.
Defined.

(** The sample has three storage items, so three checks. *)
Lemma defaultValues_registers_witness :
  exists c' : Collector,
    defaultValues 0%nat substrate None None (start empty_world) = (Ok tt, c') /\
    map title (tests c')
    = ["system.number: u32"; "system.digest: Option<Bytes>"; "system.legacy: Legacy"].
Proof.
  destruct (defaultValues_registers (K:=collaborators) 0%nat substrate None None
              (start empty_world) m14 latest None None eq_refl eq_refl)
    as (c' & Hrun & _ & Htests & _).
  exists c'. split; [exact Hrun|]. rewrite Htests. reflexivity.
Defined.

(** The third check of the sample is the calls-only one. *)
Lemma serialize_checks_calls_only_projection_witness :
  exists (t t2 t3 : Test) (c' : Collector),
    serialize 0%nat substrate (start empty_world) = (Ok tt, c') /\
    tests c' = (tests (start empty_world) ++ [t; t2; t3])%list /\
    title t2 = "can construct from a re-serialized form" /\
    skipped t2 = true /\
    title t3 = "can construct from asCallsOnly.toHex()" /\
    skipped t3 = false /\
    forall w : World,
      fst (body t3 w) = Ok tt
      <-> exists callsOnly sA hex sB decoded sC,
            asCallsOnly (Collaborators:=collaborators) m14 (regs w 0%nat)
            = (Ok callsOnly, sA) /\
            Metadata_toHex (Collaborators:=collaborators) callsOnly sA = (Ok hex, sB) /\
            new_Metadata (Collaborators:=collaborators) hex sB = (Ok decoded, sC).
Proof.
  exact (serialize_checks_calls_only_projection 0%nat substrate (start empty_world)
           m14 None eq_refl).
Defined.

(** The checks of the sample, under the default flags. *)
Lemma default_check_fails_iff_witness :
  exists new : list Test,
    tests (snd (defaultValues 0%nat tolerant None None (start empty_world)))
    = (tests (start empty_world) ++ new)%list /\
    List.length new = 3%nat.
Proof.
  destruct (default_check_fails_iff (K:=collaborators) 0%nat
              tolerant None None (start empty_world) m14 latest None None
              eq_refl eq_refl) as (new & Htests & _ & Hall).
  exists new. split; [exact Htests|].
  apply Forall2_length in Hall. rewrite <- Hall. reflexivity.
Defined.

Lemma defaultValues_undecodable_witness :
  tests (snd (defaultValues 0%nat broken None None (start empty_world))) = [] /\
  suite_errors (snd (defaultValues 0%nat broken None None (start empty_world)))
  = [(["storage with default values"], new_Error "MagicNumber mismatch")].
Proof.
  rewrite (defaultValues_undecodable (K:=collaborators) 0%nat broken None None
             (start empty_world) (new_Error "MagicNumber mismatch") None eq_refl).
  split; reflexivity.
Defined.

Lemma testMeta_undecodable_fixtures_witness :
  tests (snd (testMeta 14 [("broken", broken)] None (start empty_world))) = [].
Proof.
  assert (Hbad : Forall (fun entry =>
                   is_ok (fst (new_Metadata (data (snd entry)) new_TypeRegistry)) = false)
                   [("broken", broken)]) by (repeat constructor).
  exact (proj1 (testMeta_undecodable_fixtures (K:=collaborators) 14 [("broken", broken)]
                  None (start empty_world) Hbad)).
Defined.

End Samples.
